(** * BrowserSession: a shallow embedding of src/services/browser/BrowserSession.ts

    The class drives a browser through puppeteer.  Its methods are embedded
    as computations in a small monad that threads the fields of the session
    object and the state of the outside world, and that propagates thrown
    JavaScript errors.  Everything the class calls but does not define
    (puppeteer, fetch, the page under control) answers through an oracle
    [Env]; each answer is recorded in a trace, so that statements about what
    the session did to the browser are statements about that trace. *)

From Stdlib Require Import List String Ascii Arith ZArith Bool Lia.
Import ListNotations.

Local Open Scope list_scope.
Local Open Scope string_scope.

(** ** JavaScript values that cross the boundary *)

Definition BrowserId := nat.
Definition PageId := nat.
Definition Ref := nat.

(** A thrown value.  [instanceOfTimeoutError] is the test
    [err instanceof TimeoutError]; [errName] and [errMessage] are the
    properties read by [Error.prototype.toString] and by [error.message]. *)
Record JsError := mkJsError {
  instanceOfTimeoutError : bool;
  errName : string;
  errMessage : string
}.

(** [new Error(message)] *)
Definition newError (message : string) : JsError :=
  mkJsError false "Error" message.

Definition isEmpty (s : string) : bool :=
  match s with EmptyString => true | _ => false end.

(** [err.toString()] for an Error object. *)
Definition toString (e : JsError) : string :=
  if isEmpty (errName e) then errMessage e
  else if isEmpty (errMessage e) then errName e
  else errName e ++ ": " ++ errMessage e.

(** The value [Number(s)].  The conversion belongs to the JavaScript
    runtime; the session only passes the result on to [page.mouse.click], so
    the value is kept symbolic, as the builtin applied to its argument.  An
    [option JsNumber] is such a number or [undefined]. *)
Inductive JsNumber := Number (s : string).

(** Truthiness of a string, as tested by [if (port)] and
    [if (!browserWSEndpoint)]. *)
Definition truthy (s : option string) : bool :=
  match s with
  | None => false
  | Some s => negb (isEmpty s)
  end.

(** Modelled from the spec: the type [BrowserActionResult] is declared in
    shared/ExtensionMessage, which is not among the sources.  Its properties
    are the four of the specification's ActionResult, under the names the
    methods below assign; each is optional, as [closeBrowser] returns [{}].
    ([resultMousePosition] is the property [currentMousePosition].) *)
Record BrowserActionResult := mkResult {
  screenshot : option string;
  logs : option string;
  currentUrl : option string;
  resultMousePosition : option string
}.

(** The object literal [{}]. *)
Definition emptyResult : BrowserActionResult := mkResult None None None None.

(** ** The outside world *)

Inductive ImageType := webp | png.
Inductive EventName := console | pageerror | request.

(** What the page emits while the session awaits. *)
Inductive PageEvent :=
| ConsoleMessage (type text : string)
| PageErrorEvent (err : JsError)
| RequestEvent.

Definition eventName (e : PageEvent) : EventName :=
  match e with
  | ConsoleMessage _ _ => console
  | PageErrorEvent _ => pageerror
  | RequestEvent => request
  end.

(** The document returned by [response.json()]; only its
    [webSocketDebuggerUrl] property is read.  [JsonNull] stands for a
    document on which the property access itself throws. *)
Inductive JsonData :=
| JsonNull
| JsonObject (webSocketDebuggerUrl : option string).

Inductive LogArg :=
| LStr (s : string)
| LNum (n : nat)
| LErr (e : JsError).

(** One entry per call that leaves the class (calls of puppeteer, of the
    page, of [fetch], of the console, and the two timers), with the answer
    it got.  [inl e] and [Some e] are rejections (or throws) with [e]. *)
Inductive Call :=
| console_log (args : list LogArg)
| console_error (args : list LogArg)
| puppeteer_launch (args : list string) (width height : nat) (headless : bool)
                   (r : JsError + BrowserId)
| fetch (url : string) (r : option JsError)
| response_json (r : JsError + JsonData)
| puppeteer_connect (browserWSEndpoint : string) (r : JsError + BrowserId)
| browser_newPage (b : BrowserId) (r : JsError + PageId)
| browser_disconnect (b : BrowserId) (r : option JsError)
| browser_close (b : BrowserId) (r : option JsError)
| page_url (p : PageId) (r : string)
| page_screenshot (p : PageId) (type : ImageType) (r : JsError + string)
| page_goto (p : PageId) (url : string) (r : option JsError)
| page_content (p : PageId) (r : JsError + string)
| page_mouse_click (p : PageId) (x y : option JsNumber) (r : option JsError)
| page_keyboard_type (p : PageId) (text : string) (r : option JsError)
| page_evaluate_scrollBy (p : PageId) (top : Z) (r : option JsError)
| page_waitForNavigation (p : PageId) (r : option JsError)
| pWaitFor (r : option JsError)
| delay (ms : nat).

(** The history is kept most recent call first. *)
Definition History := list Call.

(** The oracle: how the world answers a call, given everything that
    happened before.  [page_events h] are the events the pages emit while
    the call at the head of [h] is awaited. *)
Record Env := mkEnv {
  on_launch : History -> option JsError;
  on_fetch : History -> string -> option JsError;
  on_json : History -> JsError + JsonData;
  on_connect : History -> string -> option JsError;
  on_newPage : History -> BrowserId -> option JsError;
  on_disconnect : History -> BrowserId -> option JsError;
  on_close : History -> BrowserId -> option JsError;
  on_url : History -> PageId -> string;
  on_screenshot : History -> PageId -> ImageType -> JsError + string;
  on_goto : History -> PageId -> string -> option JsError;
  on_content : History -> PageId -> JsError + string;
  on_click : History -> PageId -> option JsNumber -> option JsNumber ->
             option JsError;
  on_type : History -> PageId -> string -> option JsError;
  on_evaluate : History -> PageId -> Z -> option JsError;
  on_waitForNavigation : History -> PageId -> option JsError;
  on_pWaitFor : History -> option JsError;
  page_events : History -> list (PageId * PageEvent)
}.

(** The listener closures the class creates, with the variable each one
    captures: the [logs] array of a [doAction] call, or the
    [hasNetworkActivity] flag of a [click] call. *)
Inductive Closure :=
| consoleListener (logs : Ref)
| errorListener (logs : Ref)
| requestListener (hasNetworkActivity : Ref).

Record Listener := mkListener {
  l_page : PageId;
  l_event : EventName;
  l_closure : Closure
}.

(** The fields of the class ([context] is never read). *)
Record BrowserSession := mkSession {
  browser : option BrowserId;
  page : option PageId;
  currentMousePosition : option string;
  isInteractive : bool;
  browserPort : string
}.

(** The state after [new BrowserSession(context)]. *)
Definition newSession : BrowserSession :=
  mkSession None None None false "7333".

Record State := mkState {
  this : BrowserSession;
  trace : History;
  listeners : list Listener;       (* registered with page.on, oldest first *)
  arrays : Ref -> list string;     (* the [logs] arrays, by address *)
  flags : Ref -> bool;             (* the [hasNetworkActivity] variables *)
  nextId : nat                     (* next fresh browser, page or address *)
}.

Definition initialState : State :=
  mkState newSession [] [] (fun _ => []) (fun _ => false) 0.

Definition withThis (f : BrowserSession -> BrowserSession) (st : State) : State :=
  mkState (f (this st)) (trace st) (listeners st) (arrays st) (flags st) (nextId st).

Definition withTrace (f : History -> History) (st : State) : State :=
  mkState (this st) (f (trace st)) (listeners st) (arrays st) (flags st) (nextId st).

Definition withListeners (f : list Listener -> list Listener) (st : State) : State :=
  mkState (this st) (trace st) (f (listeners st)) (arrays st) (flags st) (nextId st).

Definition withArrays (f : (Ref -> list string) -> Ref -> list string) (st : State) : State :=
  mkState (this st) (trace st) (listeners st) (f (arrays st)) (flags st) (nextId st).

Definition withFlags (f : (Ref -> bool) -> Ref -> bool) (st : State) : State :=
  mkState (this st) (trace st) (listeners st) (arrays st) (f (flags st)) (nextId st).

Definition withNextId (f : nat -> nat) (st : State) : State :=
  mkState (this st) (trace st) (listeners st) (arrays st) (flags st) (f (nextId st)).

Definition update {A} (m : Ref -> A) (r : Ref) (v : A) : Ref -> A :=
  fun r' => if Nat.eqb r' r then v else m r'.

(** [xs.push(x)] *)
Definition push {A} (xs : list A) (x : A) : list A := app xs [x].

(** ** Event delivery *)

Definition eventName_eqb (a b : EventName) : bool :=
  match a, b with
  | console, console | pageerror, pageerror | request, request => true
  | _, _ => false
  end.

Definition closure_eqb (a b : Closure) : bool :=
  match a, b with
  | consoleListener x, consoleListener y => Nat.eqb x y
  | errorListener x, errorListener y => Nat.eqb x y
  | requestListener x, requestListener y => Nat.eqb x y
  | _, _ => false
  end.

Definition listener_eqb (a b : Listener) : bool :=
  Nat.eqb (l_page a) (l_page b) && eventName_eqb (l_event a) (l_event b)
  && closure_eqb (l_closure a) (l_closure b).

(** The bodies of [consoleListener], [errorListener] and [requestListener].
    ([lastLogTs] is a wall-clock stamp; it only decides how long the
    quiescence wait lasts and is not represented.) *)
Definition runClosure (c : Closure) (e : PageEvent) (st : State) : State :=
  match c, e with
  | consoleListener a, ConsoleMessage type text =>
      let line := if String.eqb type "log" then text
                  else "[" ++ type ++ "] " ++ text in
      withArrays (fun m => update m a (push (m a) line)) st
  | errorListener a, PageErrorEvent err =>
      withArrays (fun m => update m a (push (m a) ("[Page Error] " ++ toString err))) st
  | requestListener f, RequestEvent =>
      withFlags (fun m => update m f true) st
  | _, _ => st
  end.

Definition fire (st : State) (pe : PageId * PageEvent) : State :=
  fold_left
    (fun st l =>
       if Nat.eqb (l_page l) (fst pe) && eventName_eqb (l_event l) (eventName (snd pe))
       then runClosure (l_closure l) (snd pe) st else st)
    (listeners st) st.

Definition deliver (evs : list (PageId * PageEvent)) (st : State) : State :=
  fold_left fire evs st.

(** ** The monad: oracle, state, and thrown errors *)

Inductive Res (A : Type) :=
| Ok (a : A)
| Throw (e : JsError).
Arguments Ok {A} a.
Arguments Throw {A} e.

Definition M (A : Type) : Type := Env -> State -> Res A * State.

Definition ret {A} (a : A) : M A := fun _ st => (Ok a, st).

Definition bind {A B} (m : M A) (k : A -> M B) : M B :=
  fun env st =>
    match m env st with
    | (Ok a, st1) => k a env st1
    | (Throw e, st1) => (Throw e, st1)
    end.

Definition throw {A} (e : JsError) : M A := fun _ st => (Throw e, st).

(** [try { m } catch (err) { h err }] *)
Definition tryCatch {A} (m : M A) (h : JsError -> M A) : M A :=
  fun env st =>
    match m env st with
    | (Ok a, st1) => (Ok a, st1)
    | (Throw e, st1) => h e env st1
    end.

Declare Scope js_scope.
Delimit Scope js_scope with js.
Notation "x <- m ;; k" := (bind m (fun x => k))
  (at level 100, m at next level, right associativity) : js_scope.
Notation "m ;; k" := (bind m (fun _ => k))
  (at level 100, right associativity) : js_scope.
Local Open Scope js_scope.

Definition getThis : M BrowserSession := fun _ st => (Ok (this st), st).
Definition setThis (f : BrowserSession -> BrowserSession) : M unit :=
  fun _ st => (Ok tt, withThis f st).

Definition set_browser (b : BrowserId) (s : BrowserSession) : BrowserSession :=
  mkSession (Some b) (page s) (currentMousePosition s) (isInteractive s) (browserPort s).
Definition set_page (p : option PageId) (s : BrowserSession) : BrowserSession :=
  mkSession (browser s) p (currentMousePosition s) (isInteractive s) (browserPort s).
Definition set_currentMousePosition (c : string) (s : BrowserSession) : BrowserSession :=
  mkSession (browser s) (page s) (Some c) (isInteractive s) (browserPort s).
Definition set_isInteractive (i : bool) (s : BrowserSession) : BrowserSession :=
  mkSession (browser s) (page s) (currentMousePosition s) i (browserPort s).
Definition set_browserPort (port : string) (s : BrowserSession) : BrowserSession :=
  mkSession (browser s) (page s) (currentMousePosition s) (isInteractive s) port.

(** A synchronous call: ask the oracle, record the answer. *)
Definition sync {A} (ask : Env -> History -> A) (entry : A -> Call) : M A :=
  fun env st =>
    let r := ask env (trace st) in
    (Ok r, withTrace (cons (entry r)) st).

(** An awaited call: as [sync], and the events the pages emit meanwhile
    reach the listeners registered at that moment. *)
Definition await {A} (ask : Env -> History -> A) (entry : A -> Call) : M A :=
  fun env st =>
    let r := ask env (trace st) in
    let st1 := withTrace (cons (entry r)) st in
    (Ok r, deliver (page_events env (trace st1)) st1).

(** An awaited promise of nothing: a rejection is thrown. *)
Definition settle (r : option JsError) : M unit :=
  match r with
  | Some e => throw e
  | None => ret tt
  end.

(** An awaited promise of a value. *)
Definition settleWith {A} (r : JsError + A) : M A :=
  match r with
  | inl e => throw e
  | inr a => ret a
  end.

(** [.catch(() => {})] *)
Definition swallow (m : M unit) : M unit := tryCatch m (fun _ => ret tt).

(** A fresh identity: a new browser or page handle, or the address of a new
    array or variable. *)
Definition fresh : M nat :=
  fun _ st => (Ok (nextId st), withNextId S st).

(** An awaited call that answers with a new handle. *)
Definition awaitNew (ask : Env -> History -> option JsError)
           (entry : JsError + nat -> Call) : M nat :=
  fun env st =>
    match ask env (trace st) with
    | Some e =>
        let st1 := withTrace (cons (entry (inl e))) st in
        (Throw e, deliver (page_events env (trace st1)) st1)
    | None =>
        let n := nextId st in
        let st1 := withNextId S (withTrace (cons (entry (inr n))) st) in
        (Ok n, deliver (page_events env (trace st1)) st1)
    end.

Definition consoleLog (args : list LogArg) : M unit :=
  fun _ st => (Ok tt, withTrace (cons (console_log args)) st).
Definition consoleError (args : list LogArg) : M unit :=
  fun _ st => (Ok tt, withTrace (cons (console_error args)) st).

(** [page.on(event, closure)] and [page.off(event, closure)] act on the
    emitter of the page object; [off] removes one registration of the
    closure. *)
Definition pageOn (p : PageId) (ev : EventName) (c : Closure) : M unit :=
  fun _ st => (Ok tt, withListeners (fun ls => push ls (mkListener p ev c)) st).

Fixpoint removeFirst (l : Listener) (ls : list Listener) : list Listener :=
  match ls with
  | [] => []
  | l' :: ls' => if listener_eqb l' l then ls' else l' :: removeFirst l ls'
  end.

Definition pageOff (p : PageId) (ev : EventName) (c : Closure) : M unit :=
  fun _ st => (Ok tt, withListeners (removeFirst (mkListener p ev c)) st).

(** [await delay(ms)]; the promise never rejects. *)
Definition delayMs (ms : nat) : M unit :=
  await (fun _ _ => tt) (fun _ => delay ms).

(** ** waitTillHTMLStable *)

Record StableVars := mkVars {
  lastHTMLSize : nat;
  checkCounts : nat;
  countStableSizeIterations : nat
}.

Definition checkDurationMsecs : nat := 500.
Definition minStableSizeIterations : nat := 3.

Definition pageContent (p : PageId) : M string :=
  r <- await (fun env h => on_content env h p) (page_content p) ;;
  settleWith r.

(** The [while] loop.  [fuel] bounds the number of iterations; the loop
    test [checkCounts++ <= maxChecks] is kept as written, and
    [waitTillHTMLStable] passes enough fuel for the test to be what ends the
    loop (lemma [whileChecks_fuel] below).  [maxChecks] is the quotient
    [timeout / checkDurationMsecs]; [checkCounts] is an integer, so comparing
    it with the real quotient or with its integer part is the same. *)
Fixpoint whileChecks (fuel : nat) (p : PageId) (maxChecks : nat) (v : StableVars)
  : M unit :=
  match fuel with
  | 0 => ret tt
  | S fuel' =>
      if (checkCounts v <=? maxChecks)%nat then
        let checkCounts' := S (checkCounts v) in
        html <- pageContent p ;;
        let currentHTMLSize := String.length html in
        consoleLog [LStr "last: "; LNum (lastHTMLSize v);
                    LStr " <> curr: "; LNum currentHTMLSize] ;;
        let count :=
          if negb (lastHTMLSize v =? 0)%nat && (currentHTMLSize =? lastHTMLSize v)%nat
          then S (countStableSizeIterations v)
          else 0 in
        if (minStableSizeIterations <=? count)%nat then
          consoleLog [LStr "Page rendered fully..."]
        else
          delayMs checkDurationMsecs ;;
          whileChecks fuel' p maxChecks (mkVars currentHTMLSize checkCounts' count)
      else ret tt
  end.

Definition waitTillHTMLStable (p : PageId) (timeout : nat) : M unit :=
  let maxChecks := timeout / checkDurationMsecs in
  whileChecks maxChecks p maxChecks (mkVars 0 1 0).

(** The default value of the [timeout] parameter. *)
Definition defaultTimeout : nat := 5000.

(** ** launchBrowser and closeBrowser *)

Definition userAgentArg : string :=
  "--user-agent=Mozilla/5.0 (Macintosh; Intel Mac OS X 10_15_7) AppleWebKit/537.36 (KHTML, like Gecko) Chrome/128.0.0.0 Safari/537.36".

Definition closeBrowser : M BrowserActionResult :=
  s <- getThis ;;
  (if isInteractive s then
     consoleLog [LStr "disconnecting browser..."] ;;
     match browser s with
     | Some b =>
         swallow (r <- await (fun env h => on_disconnect env h b) (browser_disconnect b) ;;
                  settle r)
     | None => ret tt
     end
   else
     consoleLog [LStr "closing browser..."] ;;
     match browser s with
     | Some b =>
         swallow (r <- await (fun env h => on_close env h b) (browser_close b) ;;
                  settle r)
     | None => ret tt
     end) ;;
  ret emptyResult.

Definition versionUrl (port : string) : string :=
  "http://127.0.0.1:" ++ port ++ "/json/version".

Definition missingEndpointMessage (port : string) : string :=
  "BrowserSession.ts :: launchBrowser :: Could not get webSocketDebuggerUrl from Chrome debugging API, port: " ++ port.

Definition connectFailureMessage (message : string) : string :=
  "BrowserSession.ts :: launchBrowser :: Failed to connect to browser: "
  ++ message
  ++ ", make sure you have a running browser with --remote-debugging-port=7333".

(** The [TypeError] of reading a property of [null]. *)
Definition nullPropertyError (prop : string) : JsError :=
  mkJsError false "TypeError"
    ("Cannot read properties of null (reading '" ++ prop ++ "')").

Definition undefinedPropertyError (prop : string) : JsError :=
  mkJsError false "TypeError"
    ("Cannot read properties of undefined (reading '" ++ prop ++ "')").

(** The body of the [try] block of the interactive branch.  A
    [webSocketDebuggerUrl] that is absent or empty is falsy, and the block
    throws. *)
Definition connectToDebugger : M unit :=
  s <- getThis ;;
  r <- await (fun env h => on_fetch env h (versionUrl (browserPort s)))
             (fetch (versionUrl (browserPort s))) ;;
  settle r ;;
  d <- await (fun env h => on_json env h) response_json ;;
  data <- settleWith d ;;
  browserWSEndpoint <-
    match data with
    | JsonNull => throw (nullPropertyError "webSocketDebuggerUrl")
    | JsonObject ws => ret ws
    end ;;
  match browserWSEndpoint with
  | Some ws =>
      if truthy browserWSEndpoint then
        b <- awaitNew (fun env h => on_connect env h ws) (puppeteer_connect ws) ;;
        setThis (set_browser b)
      else
        s <- getThis ;;
        throw (newError (missingEndpointMessage (browserPort s)))
  | None =>
      s <- getThis ;;
      throw (newError (missingEndpointMessage (browserPort s)))
  end.

Definition launchBrowser (interactive : bool) (port : option string)
  : M BrowserActionResult :=
  consoleLog [LStr "launch browser called"] ;;
  setThis (set_isInteractive interactive) ;;
  match port with
  | Some value => if truthy port then setThis (set_browserPort value) else ret tt
  | None => ret tt
  end ;;
  s <- getThis ;;
  match browser s with
  | Some _ => _ <- closeBrowser ;; ret tt
  | None => ret tt
  end ;;
  s <- getThis ;;
  (if isInteractive s then
     tryCatch connectToDebugger
       (fun error =>
          consoleError
            [LStr "BrowserSession.ts :: launchBrowser :: Failed to connect to browser, make sure you have a running browser with --remote-debugging-port=7333";
             LErr error] ;;
          throw (newError (connectFailureMessage (errMessage error))))
   else
     b <- awaitNew (fun env h => on_launch env h)
                   (puppeteer_launch [userAgentArg] 900 600 false) ;;
     setThis (set_browser b)) ;;
  s <- getThis ;;
  match browser s with
  | Some b =>
      p <- awaitNew (fun env h => on_newPage env h b) (browser_newPage b) ;;
      setThis (set_page (Some p))
  | None => setThis (set_page None)
  end ;;
  s <- getThis ;;
  url <- match page s with
         | Some p => u <- sync (fun env h => on_url env h p) (page_url p) ;;
                     ret (Some u)
         | None => ret None
         end ;;
  ret (mkResult (Some EmptyString)
                (Some (if isInteractive s
                       then "Connected to browser in remote debugging mode."
                       else "Browser launched successfully."))
                url
                (currentMousePosition s)).

(** ** getCurrentScreenshot and doAction *)

Definition pageScreenshot (p : PageId) (type : ImageType) : M string :=
  r <- await (fun env h => on_screenshot env h p type) (page_screenshot p type) ;;
  settleWith r.

Definition getCurrentScreenshot : M (option string) :=
  s <- getThis ;;
  match page s with
  | None => ret None
  | Some p =>
      tryCatch
        (screenshotBase64 <- pageScreenshot p webp ;;
         ret (Some ("data:image/webp;base64," ++ screenshotBase64)))
        (fun _ =>
           tryCatch
             (screenshotBase64 <- pageScreenshot p png ;;
              ret (Some ("data:image/png;base64," ++ screenshotBase64)))
             (fun err =>
                consoleError [LStr "Failed to take screenshot:"; LErr err] ;;
                ret None))
  end.

Definition noActivePageMessage : string :=
  "Browser is not launched or connected. This may occur if the browser was automatically closed by a non-`browser_action` tool.".

Definition screenshotFailedMessage : string := "Failed to take screenshot.".

Definition newline : string := String (ascii_of_nat 10) EmptyString.

(** [const logs: string[] = []] and [logs.push(line)] on the array at an
    address *)
Definition newArray : M Ref :=
  a <- fresh ;;
  fun _ st => (Ok a, withArrays (fun m => update m a []) st).
Definition pushLine (a : Ref) (line : string) : M unit :=
  fun _ st => (Ok tt, withArrays (fun m => update m a (push (m a) line)) st).
Definition readArray (a : Ref) : M (list string) :=
  fun _ st => (Ok (arrays st a), st).

(** [let hasNetworkActivity = false] and its later read *)
Definition newFlag : M Ref :=
  f <- fresh ;;
  fun _ st => (Ok f, withFlags (fun m => update m f false) st).
Definition readFlag (f : Ref) : M bool :=
  fun _ st => (Ok (flags st f), st).

(** [pWaitFor] polls the clock against the last console activity and
    rejects after 3 seconds; how long it takes is the world's answer, and its
    rejection is swallowed.  The options of [page.goto] and
    [page.waitForNavigation] are constants and are not recorded. *)
Definition doAction (action : PageId -> M unit) : M BrowserActionResult :=
  s <- getThis ;;
  match page s with
  | None => throw (newError noActivePageMessage)
  | Some p =>
      logs <- newArray ;;
      pageOn p console (consoleListener logs) ;;
      pageOn p pageerror (errorListener logs) ;;
      tryCatch (action p)
        (fun err =>
           if negb (instanceOfTimeoutError err)
           then pushLine logs ("[Error] " ++ toString err)
           else ret tt) ;;
      swallow (r <- await (fun env h => on_pWaitFor env h) pWaitFor ;; settle r) ;;
      screenshot <- getCurrentScreenshot ;;
      if negb (truthy screenshot) then throw (newError screenshotFailedMessage)
      else
        s <- getThis ;;
        match page s with
        | None => throw (undefinedPropertyError "off")
        | Some p =>
            pageOff p console (consoleListener logs) ;;
            pageOff p pageerror (errorListener logs) ;;
            lines <- readArray logs ;;
            url <- sync (fun env h => on_url env h p) (page_url p) ;;
            s <- getThis ;;
            ret (mkResult screenshot (Some (String.concat newline lines))
                          (Some url) (currentMousePosition s))
        end
  end.

(** ** The actions *)

Definition navigateToUrl (url : string) : M BrowserActionResult :=
  doAction (fun page =>
    r <- await (fun env h => on_goto env h page url) (page_goto page url) ;;
    settle r ;;
    waitTillHTMLStable page defaultTimeout).

(** [s.split(sep)] for a one-character separator. *)
Fixpoint split (sep : ascii) (s : string) : list string :=
  match s with
  | EmptyString => [EmptyString]
  | String c rest =>
      if Ascii.eqb c sep then EmptyString :: split sep rest
      else match split sep rest with
           | [] => [String c EmptyString]
           | w :: ws => String c w :: ws
           end
  end.

Definition click (coordinate : string) : M BrowserActionResult :=
  let numbers := map Number (split "," coordinate) in
  let x := nth_error numbers 0 in
  let y := nth_error numbers 1 in
  doAction (fun page =>
    hasNetworkActivity <- newFlag ;;
    pageOn page request (requestListener hasNetworkActivity) ;;
    r <- await (fun env h => on_click env h page x y) (page_mouse_click page x y) ;;
    settle r ;;
    setThis (set_currentMousePosition coordinate) ;;
    delayMs 100 ;;
    active <- readFlag hasNetworkActivity ;;
    (if active then
       swallow (r <- await (fun env h => on_waitForNavigation env h page)
                           (page_waitForNavigation page) ;;
                settle r) ;;
       waitTillHTMLStable page defaultTimeout
     else ret tt) ;;
    pageOff page request (requestListener hasNetworkActivity)).

Definition type (text : string) : M BrowserActionResult :=
  doAction (fun page =>
    r <- await (fun env h => on_type env h page text) (page_keyboard_type page text) ;;
    settle r).

Definition scrollBy (page : PageId) (top : Z) : M unit :=
  r <- await (fun env h => on_evaluate env h page top)
             (page_evaluate_scrollBy page top) ;;
  settle r.

Definition scrollDown : M BrowserActionResult :=
  doAction (fun page => scrollBy page 600%Z ;; delayMs 300).

Definition scrollUp : M BrowserActionResult :=
  doAction (fun page => scrollBy page (-600)%Z ;; delayMs 300).

Definition isInInteractiveMode : M bool :=
  s <- getThis ;; ret (isInteractive s).

(** ** The session as its callers use it *)

(** The five actions of the session, and the call that runs one. *)
Inductive Action :=
| NavigateTo (url : string)
| ClickAt (coordinate : string)
| TypeText (text : string)
| ScrollDown
| ScrollUp.

Definition execute (a : Action) : M BrowserActionResult :=
  match a with
  | NavigateTo url => navigateToUrl url
  | ClickAt coordinate => click coordinate
  | TypeText text => type text
  | ScrollDown => scrollDown
  | ScrollUp => scrollUp
  end.

Inductive ApiCall :=
| CallLaunch (interactive : bool) (port : option string)
| CallClose
| CallAction (a : Action).

Definition perform (c : ApiCall) : M BrowserActionResult :=
  match c with
  | CallLaunch interactive port => launchBrowser interactive port
  | CallClose => closeBrowser
  | CallAction a => execute a
  end.

(** A caller that goes on using the session whatever each call returned or
    threw. *)
Fixpoint runSession (calls : list ApiCall) (env : Env) (st : State) : State :=
  match calls with
  | [] => st
  | c :: calls' => runSession calls' env (snd (perform c env st))
  end.

(** The arguments [click] passes to [page.mouse.click]. *)
Definition clickX (coordinate : string) : option JsNumber :=
  nth_error (map Number (split "," coordinate)) 0.
Definition clickY (coordinate : string) : option JsNumber :=
  nth_error (map Number (split "," coordinate)) 1.

(** ** Environments for running the code *)

(** A world in which every call succeeds and the page stays silent. *)
Definition quietEnv : Env :=
  mkEnv (fun _ => None) (fun _ _ => None)
        (fun _ => inr (JsonObject (Some "ws://127.0.0.1/devtools/browser/1")))
        (fun _ _ => None) (fun _ _ => None) (fun _ _ => None) (fun _ _ => None)
        (fun _ _ => "about:blank")
        (fun _ _ _ => inr "AAAA")
        (fun _ _ _ => None)
        (fun _ _ => inr EmptyString)
        (fun _ _ _ _ => None) (fun _ _ _ => None) (fun _ _ _ => None)
        (fun _ _ => None) (fun _ => None)
        (fun _ => []).

Fixpoint document (size : nat) : string :=
  match size with
  | 0 => EmptyString
  | S n => String "x" (document n)
  end.

(** The number of [page.content()] polls made so far. *)
Fixpoint polls (h : History) : nat :=
  match h with
  | [] => 0
  | page_content _ _ :: h' => S (polls h')
  | _ :: h' => polls h'
  end.

Definition sizeAt (sizes : list nat) (k : nat) : nat := nth k sizes 0.

(** A simulated content source: poll number [k] of the page (from 0) returns
    a document of length [sizeAt sizes k]; once the list is used up the
    document is empty. *)
Definition simulatedSource (sizes : list nat) : Env :=
  mkEnv (on_launch quietEnv) (on_fetch quietEnv) (on_json quietEnv)
        (on_connect quietEnv) (on_newPage quietEnv) (on_disconnect quietEnv)
        (on_close quietEnv) (on_url quietEnv) (on_screenshot quietEnv)
        (on_goto quietEnv)
        (fun h _ => inr (document (sizeAt sizes (polls h))))
        (on_click quietEnv) (on_type quietEnv) (on_evaluate quietEnv)
        (on_waitForNavigation quietEnv) (on_pWaitFor quietEnv)
        (page_events quietEnv).

(** No browser listens on the debugging port: the fetch rejects. *)
Definition unreachableEnv : Env :=
  mkEnv (on_launch quietEnv)
        (fun _ _ => Some (mkJsError false "TypeError" "fetch failed"))
        (on_json quietEnv)
        (on_connect quietEnv) (on_newPage quietEnv) (on_disconnect quietEnv)
        (on_close quietEnv) (on_url quietEnv) (on_screenshot quietEnv)
        (on_goto quietEnv) (on_content quietEnv)
        (on_click quietEnv) (on_type quietEnv) (on_evaluate quietEnv)
        (on_waitForNavigation quietEnv) (on_pWaitFor quietEnv)
        (page_events quietEnv).

(** The version document carries no [webSocketDebuggerUrl]. *)
Definition noEndpointEnv : Env :=
  mkEnv (on_launch quietEnv) (on_fetch quietEnv)
        (fun _ => inr (JsonObject None))
        (on_connect quietEnv) (on_newPage quietEnv) (on_disconnect quietEnv)
        (on_close quietEnv) (on_url quietEnv) (on_screenshot quietEnv)
        (on_goto quietEnv) (on_content quietEnv)
        (on_click quietEnv) (on_type quietEnv) (on_evaluate quietEnv)
        (on_waitForNavigation quietEnv) (on_pWaitFor quietEnv)
        (page_events quietEnv).

(** Both screenshot formats fail, and the page logs one line per awaited
    call. *)
Definition blindEnv : Env :=
  mkEnv (on_launch quietEnv) (on_fetch quietEnv) (on_json quietEnv)
        (on_connect quietEnv) (on_newPage quietEnv) (on_disconnect quietEnv)
        (on_close quietEnv) (on_url quietEnv)
        (fun _ _ _ => inl (mkJsError false "ProtocolError" "Target closed"))
        (on_goto quietEnv) (on_content quietEnv)
        (on_click quietEnv) (on_type quietEnv) (on_evaluate quietEnv)
        (on_waitForNavigation quietEnv) (on_pWaitFor quietEnv)
        (fun _ => [(1, ConsoleMessage "log" "tick")]).

(** The pointer click is rejected by the browser. *)
Definition deadPointerEnv : Env :=
  mkEnv (on_launch quietEnv) (on_fetch quietEnv) (on_json quietEnv)
        (on_connect quietEnv) (on_newPage quietEnv) (on_disconnect quietEnv)
        (on_close quietEnv) (on_url quietEnv) (on_screenshot quietEnv)
        (on_goto quietEnv) (on_content quietEnv)
        (fun _ _ _ _ => Some (mkJsError false "ProtocolError" "Target closed"))
        (on_type quietEnv) (on_evaluate quietEnv)
        (on_waitForNavigation quietEnv) (on_pWaitFor quietEnv)
        (page_events quietEnv).

(** A session on which [launchBrowser()] has succeeded: browser 0, page 1. *)
Definition launched (env : Env) : State :=
  snd (launchBrowser false None env initialState).

(** ** Observations *)

(** The calls made between two states of one run, most recent first. *)
Definition newCalls (st st' : State) : History :=
  firstn (List.length (trace st') - List.length (trace st)) (trace st').

(** The screenshot attempts in a history, in the order they were made. *)
Fixpoint screenshotAttempts (h : History) : list (ImageType * (JsError + string)) :=
  match h with
  | [] => []
  | page_screenshot _ type r :: h' => (screenshotAttempts h' ++ [(type, r)])%list
  | _ :: h' => screenshotAttempts h'
  end.

(** The URLs fetched in a history, in the order they were fetched. *)
Fixpoint fetchedUrls (h : History) : list string :=
  match h with
  | [] => []
  | fetch url _ :: h' => (fetchedUrls h' ++ [url])%list
  | _ :: h' => fetchedUrls h'
  end.

(** [waitTillHTMLStable] returns nothing; that it found the page stable
    shows in its leaving the loop through [break], after logging this
    line. *)
Definition isRenderedFully (c : Call) : bool :=
  match c with
  | console_log [LStr s] => String.eqb s "Page rendered fully..."
  | _ => false
  end.

Definition declaredStable (st : State) : bool := existsb isRenderedFully (trace st).

(** The helper run on page 0 of a fresh world against a simulated source. *)
Definition stabilize (sizes : list nat) (timeout : nat) : State :=
  snd (waitTillHTMLStable 0 timeout (simulatedSource sizes) initialState).

(** [haystack.includes(needle)] *)
Fixpoint contains (needle haystack : string) : bool :=
  String.prefix needle haystack
  || match haystack with
     | EmptyString => false
     | String _ rest => contains needle rest
     end.

Definition anyCall (c : Call) : bool := true.
Definition notScreenshot (c : Call) : bool :=
  match c with page_screenshot _ _ _ => false | _ => true end.
Definition notClose (c : Call) : bool :=
  match c with browser_close _ _ => false | _ => true end.
Definition notFetch (c : Call) : bool :=
  match c with fetch _ _ => false | _ => true end.
Definition noListener (l : Listener) : bool := false.
Definition notRequest (l : Listener) : bool := negb (eventName_eqb (l_event l) request).

(** ** The notions of the specification *)

(** The stability counter in the words of the specification: after a poll
    whose length is non-zero and unchanged from the previous poll the counter
    is one more than before; after any other poll it is zero.
    [counterAfter sizes k] is its value after poll [k]. *)
Fixpoint counterAfter (sizes : list nat) (k : nat) : nat :=
  match k with
  | 0 => 0
  | S k' =>
      if negb (sizeAt sizes (S k') =? 0)%nat
         && (sizeAt sizes (S k') =? sizeAt sizes k')%nat
      then S (counterAfter sizes k')
      else 0
  end.

(** A coordinate in the words of the specification: two comma-separated
    integers. *)
Definition isDigit (c : ascii) : bool :=
  (48 <=? nat_of_ascii c)%nat && (nat_of_ascii c <=? 57)%nat.

Fixpoint allDigits (s : string) : bool :=
  match s with
  | EmptyString => true
  | String c rest => isDigit c && allDigits rest
  end.

Definition isInteger (s : string) : bool :=
  match s with
  | String "-" rest => negb (isEmpty rest) && allDigits rest
  | _ => negb (isEmpty s) && allDigits s
  end.

Definition isCoordinate (s : string) : bool :=
  match split "," s with
  | [x; y] => isInteger x && isInteger y
  | _ => false
  end.

(** The port a session holds after a call, given the one it held before: a
    launch that supplies a non-empty port replaces it. *)
Definition portAfter (current : string) (c : ApiCall) : string :=
  match c with
  | CallLaunch _ (Some value) => if truthy (Some value) then value else current
  | _ => current
  end.

(** The port supplied by the most recent launch that supplied one, or the
    default of a new session. *)
Definition stickyPort (calls : list ApiCall) : string :=
  fold_left portAfter calls (browserPort newSession).

(** ** The methods in phases

    The proofs follow a method up to some point and treat the rest as a
    whole.  Each definition below is the rest of a method from one of its
    statements on; the lemmas [doAction_parts] and [launchBrowser_phases]
    state that the methods are made of them. *)

(** [doAction] up to the registration of its listeners. *)
Definition registerListeners (p : PageId) (st : State) : State :=
  let logs := nextId st in
  withListeners (fun ls => push ls (mkListener p pageerror (errorListener logs)))
    (withListeners (fun ls => push ls (mkListener p console (consoleListener logs)))
       (withArrays (fun m => update m logs []) (withNextId S st))).

(** The [try] statement around the action. *)
Definition runEffect (action : PageId -> M unit) (logs : Ref) (p : PageId) : M unit :=
  tryCatch (action p)
    (fun err =>
       if negb (instanceOfTimeoutError err)
       then pushLine logs ("[Error] " ++ toString err)
       else ret tt).

(** [doAction] from the quiescence wait on. *)
Definition finishAction (logs : Ref) : M BrowserActionResult :=
  swallow (r <- await (fun env h => on_pWaitFor env h) pWaitFor ;; settle r) ;;
  screenshot <- getCurrentScreenshot ;;
  if negb (truthy screenshot) then throw (newError screenshotFailedMessage)
  else
    s <- getThis ;;
    match page s with
    | None => throw (undefinedPropertyError "off")
    | Some p =>
        pageOff p console (consoleListener logs) ;;
        pageOff p pageerror (errorListener logs) ;;
        lines <- readArray logs ;;
        url <- sync (fun env h => on_url env h p) (page_url p) ;;
        s <- getThis ;;
        ret (mkResult screenshot (Some (String.concat newline lines))
                      (Some url) (currentMousePosition s))
    end.

(** The three ways [finishAction] ends on a session with a page, by the
    answers to its screenshot calls. *)
Inductive Finished (a : Ref) (st : State) (p : PageId)
  : Res BrowserActionResult -> State -> Prop :=
| FinishedWebp r d u res st' :
    trace st' = page_url p u :: page_screenshot p webp (inr d) :: pWaitFor r :: trace st ->
    this st' = this st ->
    listeners st' =
      removeFirst (mkListener p pageerror (errorListener a))
        (removeFirst (mkListener p console (consoleListener a)) (listeners st)) ->
    screenshot res = Some ("data:image/webp;base64," ++ d) ->
    logs res = Some (String.concat newline (arrays st' a)) ->
    currentUrl res = Some u ->
    resultMousePosition res = currentMousePosition (this st) ->
    Finished a st p (Ok res) st'
| FinishedPng r e d u res st' :
    trace st' = page_url p u :: page_screenshot p png (inr d)
                :: page_screenshot p webp (inl e) :: pWaitFor r :: trace st ->
    this st' = this st ->
    listeners st' =
      removeFirst (mkListener p pageerror (errorListener a))
        (removeFirst (mkListener p console (consoleListener a)) (listeners st)) ->
    screenshot res = Some ("data:image/png;base64," ++ d) ->
    logs res = Some (String.concat newline (arrays st' a)) ->
    currentUrl res = Some u ->
    resultMousePosition res = currentMousePosition (this st) ->
    Finished a st p (Ok res) st'
| FinishedNone r e e' st' :
    trace st' = console_error [LStr "Failed to take screenshot:"; LErr e']
                :: page_screenshot p png (inl e')
                :: page_screenshot p webp (inl e) :: pWaitFor r :: trace st ->
    this st' = this st ->
    listeners st' = listeners st ->
    Finished a st p (Throw (newError screenshotFailedMessage)) st'.

(** [click] after the 100 ms delay has been requested. *)
Definition awaitNavigation (page : PageId) (hasNetworkActivity : Ref) : M unit :=
  delayMs 100 ;;
  active <- readFlag hasNetworkActivity ;;
  (if active then
     swallow (r <- await (fun env h => on_waitForNavigation env h page)
                         (page_waitForNavigation page) ;;
              settle r) ;;
     waitTillHTMLStable page defaultTimeout
   else ret tt) ;;
  pageOff page request (requestListener hasNetworkActivity).

(** [click] once the pointer click has been dispatched without error. *)
Definition afterClick (coordinate : string) (page : PageId) (hasNetworkActivity : Ref)
  : M unit :=
  setThis (set_currentMousePosition coordinate) ;;
  awaitNavigation page hasNetworkActivity.

(** The closure each method hands to [doAction]. *)
Definition effect (a : Action) : PageId -> M unit :=
  match a with
  | NavigateTo url => fun page =>
      r <- await (fun env h => on_goto env h page url) (page_goto page url) ;;
      settle r ;;
      waitTillHTMLStable page defaultTimeout
  | ClickAt coordinate => fun page =>
      hasNetworkActivity <- newFlag ;;
      pageOn page request (requestListener hasNetworkActivity) ;;
      r <- await (fun env h => on_click env h page (clickX coordinate) (clickY coordinate))
                 (page_mouse_click page (clickX coordinate) (clickY coordinate)) ;;
      settle r ;;
      afterClick coordinate page hasNetworkActivity
  | TypeText text => fun page =>
      r <- await (fun env h => on_type env h page text) (page_keyboard_type page text) ;;
      settle r
  | ScrollDown => fun page => scrollBy page 600%Z ;; delayMs 300
  | ScrollUp => fun page => scrollBy page (-600)%Z ;; delayMs 300
  end.

(** The state in which [finishAction] starts. *)
Definition afterEffect (a : Action) (env : Env) (st : State) (p : PageId) : State :=
  snd (runEffect (effect a) (nextId st) p env (registerListeners p st)).

(** [launchBrowser] from [this.page = await this.browser?.newPage()] on. *)
Definition openPage : M BrowserActionResult :=
  s <- getThis ;;
  match browser s with
  | Some b =>
      p <- awaitNew (fun env h => on_newPage env h b) (browser_newPage b) ;;
      setThis (set_page (Some p))
  | None => setThis (set_page None)
  end ;;
  s <- getThis ;;
  url <- match page s with
         | Some p => u <- sync (fun env h => on_url env h p) (page_url p) ;;
                     ret (Some u)
         | None => ret None
         end ;;
  ret (mkResult (Some EmptyString)
                (Some (if isInteractive s
                       then "Connected to browser in remote debugging mode."
                       else "Browser launched successfully."))
                url
                (currentMousePosition s)).

(** [connectToDebugger] once the fetch has settled. *)
Definition afterFetch : M unit :=
  d <- await (fun env h => on_json env h) response_json ;;
  data <- settleWith d ;;
  browserWSEndpoint <-
    match data with
    | JsonNull => throw (nullPropertyError "webSocketDebuggerUrl")
    | JsonObject ws => ret ws
    end ;;
  match browserWSEndpoint with
  | Some ws =>
      if truthy browserWSEndpoint then
        b <- awaitNew (fun env h => on_connect env h ws) (puppeteer_connect ws) ;;
        setThis (set_browser b)
      else
        s <- getThis ;;
        throw (newError (missingEndpointMessage (browserPort s)))
  | None =>
      s <- getThis ;;
      throw (newError (missingEndpointMessage (browserPort s)))
  end.

(** The [catch] block of the interactive branch. *)
Definition connectFailed (error : JsError) : M unit :=
  consoleError
    [LStr "BrowserSession.ts :: launchBrowser :: Failed to connect to browser, make sure you have a running browser with --remote-debugging-port=7333";
     LErr error] ;;
  throw (newError (connectFailureMessage (errMessage error))).

(** [launchBrowser] from [if (this.isInteractive)] on. *)
Definition afterClose : M BrowserActionResult :=
  s <- getThis ;;
  (if isInteractive s then tryCatch connectToDebugger connectFailed
   else
     b <- awaitNew (fun env h => on_launch env h)
                   (puppeteer_launch [userAgentArg] 900 600 false) ;;
     setThis (set_browser b)) ;;
  openPage.

(** [if (this.browser) { await this.closeBrowser() }] *)
Definition closePrior : M unit :=
  s <- getThis ;;
  match browser s with
  | Some _ => _ <- closeBrowser ;; ret tt
  | None => ret tt
  end.

(** The state in which [launchBrowser] looks at [this.browser]. *)
Definition beginLaunch (interactive : bool) (port : option string) (st : State) : State :=
  let st1 := withThis (set_isInteractive interactive)
               (withTrace (cons (console_log [LStr "launch browser called"])) st) in
  match port with
  | Some value => if truthy port then withThis (set_browserPort value) st1 else st1
  | None => st1
  end.

(** The loop variables at the start of iteration [k] against a simulated
    source. *)
Definition prevSize (sizes : list nat) (k : nat) : nat :=
  match k with 0 => 0 | S k' => sizeAt sizes k' end.
Definition prevCounter (sizes : list nat) (k : nat) : nat :=
  match k with 0 => 0 | S k' => counterAfter sizes k' end.

(** ** Frames

    [framed sel ok keepL st st'] bounds what a piece of code did between
    [st] and [st']: the part [sel] of the session fields is unchanged, every
    call it made satisfies [ok], and every listener that satisfies [keepL]
    is still registered.  [keeps] says so of a computation, from any state
    and in any world. *)

(** Changes confined to the arrays and flags that closures capture. *)
Definition heapOnly (st st' : State) : Prop :=
  this st' = this st /\ trace st' = trace st
  /\ listeners st' = listeners st /\ nextId st' = nextId st.

Definition framed {X : Type} (sel : BrowserSession -> X) (ok : Call -> bool)
           (keepL : Listener -> bool) (st st' : State) : Prop :=
  sel (this st') = sel (this st)
  /\ (exists new, trace st' = (new ++ trace st)%list /\ forallb ok new = true)
  /\ (forall l, keepL l = true -> In l (listeners st) -> In l (listeners st')).

Definition keeps {X : Type} (sel : BrowserSession -> X) (ok : Call -> bool)
           (keepL : Listener -> bool) {A : Type} (m : M A) : Prop :=
  forall env st, framed sel ok keepL st (snd (m env st)).

(** ** Further notions for statements about the whole class *)

(** [respectsIn P R m]: in every world that satisfies [P], running [m] from
    any state leads to a state related to it by [R]. *)
Definition respectsIn (P : Env -> Prop) (R : State -> State -> Prop)
           {A : Type} (m : M A) : Prop :=
  forall env st, P env -> R st (snd (m env st)).

Definition anyEnv (env : Env) : Prop := True.

(** A world whose pages emit nothing. *)
Definition silent (env : Env) : Prop := forall h, page_events env h = [].

(** The registrations are untouched. *)
Definition sameListeners (st st' : State) : Prop := listeners st' = listeners st.

(** Nothing was registered: identities were only handed out and
    registrations only removed. *)
Definition shrinks (st st' : State) : Prop :=
  nextId st <= nextId st'
  /\ (forall l, In l (listeners st') -> In l (listeners st)).

(** The arrays captured by listeners are untouched. *)
Definition sameArrays (st st' : State) : Prop := arrays st' = arrays st.

(** The address a closure captures. *)
Definition captured (c : Closure) : Ref :=
  match c with
  | consoleListener a => a
  | errorListener a => a
  | requestListener f => f
  end.

(** Every registered closure captures an address that has been allocated. *)
Definition allocated (st : State) : Prop :=
  forall l, In l (listeners st) -> captured (l_closure l) < nextId st.

(** What a relation between states must allow for code to respect it.
    [Stepwise] is asked of every relation: it ignores the session fields and
    the trace, and it holds across the delivery of events in the worlds
    considered.  The other classes name what only some relations allow. *)
Class Stepwise (P : Env -> Prop) (R : State -> State -> Prop) : Prop := {
  step_refl : forall st, R st st;
  step_trans : forall st1 st2 st3, R st1 st2 -> R st2 st3 -> R st1 st3;
  step_trace : forall f st, R st (withTrace f st);
  step_this : forall f st, R st (withThis f st);
  step_events : forall env h st, P env -> R st (deliver (page_events env h) st)
}.

Class AllowsAlloc (R : State -> State -> Prop) : Prop :=
  allows_alloc : forall st, R st (withNextId S st).
Class AllowsArrays (R : State -> State -> Prop) : Prop :=
  allows_arrays : forall f st, R st (withArrays f st).
Class AllowsFlags (R : State -> State -> Prop) : Prop :=
  allows_flags : forall f st, R st (withFlags f st).
Class AllowsOn (R : State -> State -> Prop) : Prop :=
  allows_on : forall l st, R st (withListeners (fun ls => push ls l) st).
Class AllowsOff (R : State -> State -> Prop) : Prop :=
  allows_off : forall l st, R st (withListeners (removeFirst l) st).

(** [click]'s closure up to the registration of its request listener, and
    from the dispatch of the pointer click on. *)
Definition registerRequest (p : PageId) (st : State) : State :=
  let hasNetworkActivity := nextId st in
  withListeners (fun ls => push ls (mkListener p request (requestListener hasNetworkActivity)))
    (withFlags (fun m => update m hasNetworkActivity false) (withNextId S st)).

Definition dispatchClick (coordinate : string) (page : PageId) (hasNetworkActivity : Ref)
  : M unit :=
  r <- await (fun env h => on_click env h page (clickX coordinate) (clickY coordinate))
             (page_mouse_click page (clickX coordinate) (clickY coordinate)) ;;
  settle r ;;
  afterClick coordinate page hasNetworkActivity.

Definition isClickAt (a : Action) : bool :=
  match a with ClickAt _ => true | _ => false end.

(** The page's content can always be read. *)
Definition readable (env : Env) (p : PageId) : Prop :=
  forall h, exists html, on_content env h p = inr html.

(** The non-interactive branch of [launchBrowser], and the whole
    [if (this.isInteractive)] statement. *)
Definition launchPrivate : M unit :=
  b <- awaitNew (fun env h => on_launch env h)
                (puppeteer_launch [userAgentArg] 900 600 false) ;;
  setThis (set_browser b).

Definition obtainBrowser : M unit :=
  s <- getThis ;;
  if isInteractive s then tryCatch connectToDebugger connectFailed
  else launchPrivate.

(** The calls a private launch may make: no fetch, no connect, and
    [puppeteer.launch] only with the fixed user agent, the 900 x 600
    viewport and [headless: false]. *)
Definition privateLaunchCall (c : Call) : bool :=
  match c with
  | puppeteer_launch [a] 900 600 false _ => String.eqb a userAgentArg
  | puppeteer_launch _ _ _ _ _ => false
  | fetch _ _ | response_json _ | puppeteer_connect _ _ => false
  | _ => true
  end.

(** The calls an attaching launch may make: no [puppeteer.launch]. *)
Definition attachCall (c : Call) : bool :=
  match c with puppeteer_launch _ _ _ _ _ => false | _ => true end.

Definition notNewPage (c : Call) : bool :=
  match c with browser_newPage _ _ => false | _ => true end.

Fixpoint newPages (h : History) : nat :=
  match h with
  | [] => 0
  | browser_newPage _ _ :: h' => S (newPages h')
  | _ :: h' => newPages h'
  end.

(** Calls on a browser handle. *)
Definition notBrowserCall (c : Call) : bool :=
  match c with
  | browser_newPage _ _ | browser_disconnect _ _ | browser_close _ _ => false
  | _ => true
  end.

Definition isLaunch (c : ApiCall) : bool :=
  match c with CallLaunch _ _ => true | _ => false end.

Definition isClick (c : ApiCall) : bool :=
  match c with CallAction (ClickAt _) => true | _ => false end.

(** The mode flag after a call, given the flag before. *)
Definition modeAfter (current : bool) (c : ApiCall) : bool :=
  match c with CallLaunch interactive _ => interactive | _ => current end.

Definition launchMessage (interactive : bool) : string :=
  if interactive then "Connected to browser in remote debugging mode."
  else "Browser launched successfully.".

(** The session fields that only [openPage] and [click] may change. *)
Definition besidesBrowser (s : BrowserSession) : option PageId * option string * bool * string :=
  (page s, currentMousePosition s, isInteractive s, browserPort s).

(** The time a history spent in [delay], in milliseconds. *)
Fixpoint waited (h : History) : nat :=
  match h with
  | [] => 0
  | delay ms :: h' => ms + waited h'
  | _ :: h' => waited h'
  end.

(** The calls [waitTillHTMLStable] makes. *)
Definition stabilizationCall (p : PageId) (c : Call) : bool :=
  match c with
  | page_content q _ => Nat.eqb q p
  | console_log _ => true
  | delay ms => Nat.eqb ms checkDurationMsecs
  | _ => false
  end.



(** The line a listener of [doAction] appends for an event: the text of a
    console message of type [log], the text behind its bracketed type for
    any other console message, the error behind [[Page Error]] for a page
    error; a request appends nothing. *)
Definition logLine (e : PageEvent) : list string :=
  match e with
  | ConsoleMessage type text =>
      [if String.eqb type "log" then text else "[" ++ type ++ "] " ++ text]
  | PageErrorEvent err => ["[Page Error] " ++ toString err]
  | RequestEvent => []
  end.

(** The lines for the events of page [p] among a batch of events, in the
    order of the batch. *)
Definition linesOf (p : PageId) (evs : list (PageId * PageEvent)) : list string :=
  flat_map (fun pe => if Nat.eqb p (fst pe) then logLine (snd pe) else []) evs.

(** No comma occurs in the string. *)
Fixpoint noComma (s : string) : bool :=
  match s with
  | EmptyString => true
  | String c rest => negb (Ascii.eqb c ",") && noComma rest
  end.

(** What [launchBrowser] does from [newPage] on, once a browser is held:
    either [newPage] rejects and the session is as it was, or the page is
    stored, its URL read and the result built. *)
Inductive PageOpened (st : State) (b : BrowserId)
  : Res BrowserActionResult -> State -> Prop :=
| PageRefused e st' :
    trace st' = browser_newPage b (inl e) :: trace st ->
    this st' = this st ->
    PageOpened st b (Throw e) st'
| PageGranted p u st' :
    trace st' = page_url p u :: browser_newPage b (inr p) :: trace st ->
    this st' = set_page (Some p) (this st) ->
    PageOpened st b
      (Ok (mkResult (Some EmptyString) (Some (launchMessage (isInteractive (this st))))
                    (Some u) (currentMousePosition (this st)))) st'.

(** The navigation is rejected: the host cannot be resolved. *)
Definition offlineEnv : Env :=
  mkEnv (on_launch quietEnv) (on_fetch quietEnv) (on_json quietEnv)
        (on_connect quietEnv) (on_newPage quietEnv) (on_disconnect quietEnv)
        (on_close quietEnv) (on_url quietEnv) (on_screenshot quietEnv)
        (fun _ _ _ => Some (mkJsError false "Error" "net::ERR_NAME_NOT_RESOLVED"))
        (on_content quietEnv)
        (on_click quietEnv) (on_type quietEnv) (on_evaluate quietEnv)
        (on_waitForNavigation quietEnv) (on_pWaitFor quietEnv)
        (page_events quietEnv).

(** Lines were only appended to the array at [a]. *)
Definition appended (a : Ref) (st st' : State) : Prop :=
  exists more, arrays st' a = (arrays st a ++ more)%list.

(** * Proofs *)

(** ** Event delivery touches only the heap *)

Lemma heapOnly_refl st : heapOnly st st.
Proof. repeat split. Qed.

Lemma heapOnly_trans st1 st2 st3 :
  heapOnly st1 st2 -> heapOnly st2 st3 -> heapOnly st1 st3.
Proof. unfold heapOnly. intuition congruence. Qed.

Lemma heapOnly_runClosure c e st : heapOnly st (runClosure c e st).
Proof. destruct c, e; repeat split. Qed.

Lemma heapOnly_fire st pe : heapOnly st (fire st pe).
Proof.
  unfold fire. generalize (listeners st) as ls. intros ls. revert st.
  induction ls as [|l ls IH]; intros st; simpl.
  - apply heapOnly_refl.
  - eapply heapOnly_trans; [|apply IH].
    destruct (_ && _); [apply heapOnly_runClosure | apply heapOnly_refl].
Qed.

Lemma heapOnly_deliver evs : forall st, heapOnly st (deliver evs st).
Proof.
  induction evs as [|pe evs IH]; intros st; simpl.
  - apply heapOnly_refl.
  - eapply heapOnly_trans; [apply heapOnly_fire | apply IH].
Qed.

Lemma this_deliver evs st : this (deliver evs st) = this st.
Proof. apply heapOnly_deliver. Qed.

Lemma trace_deliver evs st : trace (deliver evs st) = trace st.
Proof. apply heapOnly_deliver. Qed.

Lemma listeners_deliver evs st : listeners (deliver evs st) = listeners st.
Proof. apply heapOnly_deliver. Qed.

Lemma nextId_deliver evs st : nextId (deliver evs st) = nextId st.
Proof. apply heapOnly_deliver. Qed.

(** Projections of a state built by the primitives. *)
Ltac project :=
  repeat first
    [ progress cbn [this trace listeners nextId fst snd
                    withTrace withThis withListeners withArrays withFlags withNextId]
    | rewrite this_deliver | rewrite trace_deliver
    | rewrite listeners_deliver | rewrite nextId_deliver ].

(** ** Frame rules *)

Section Frame.
Context {X : Type}.
Variable sel : BrowserSession -> X.
Variable ok : Call -> bool.
Variable keepL : Listener -> bool.

Lemma framed_refl st : framed sel ok keepL st st.
Proof.
  repeat split; auto. exists []. split; reflexivity.
Qed.

Lemma framed_trans st1 st2 st3 :
  framed sel ok keepL st1 st2 -> framed sel ok keepL st2 st3 ->
  framed sel ok keepL st1 st3.
Proof.
  intros (Hs & (n1 & Ht1 & Hn1) & Hl1) (Hs' & (n2 & Ht2 & Hn2) & Hl2).
  repeat split.
  - congruence.
  - exists (n2 ++ n1)%list. split.
    + rewrite Ht2, Ht1. apply app_assoc.
    + rewrite forallb_app, Hn1, Hn2. reflexivity.
  - auto.
Qed.

Lemma framed_heap st st' :
  this st' = this st -> trace st' = trace st -> listeners st' = listeners st ->
  framed sel ok keepL st st'.
Proof.
  intros H1 H2 H3. repeat split.
  - now rewrite H1.
  - exists []. now split.
  - now rewrite H3.
Qed.

Lemma framed_call c st :
  ok c = true -> framed sel ok keepL st (withTrace (cons c) st).
Proof.
  intros Hc. repeat split; auto.
  exists [c]. split; [reflexivity | simpl; now rewrite Hc].
Qed.

Lemma framed_deliver evs st st' :
  framed sel ok keepL st st' -> framed sel ok keepL st (deliver evs st').
Proof.
  intros H. eapply framed_trans; [exact H|].
  apply framed_heap; apply heapOnly_deliver.
Qed.

Lemma keeps_ret {A} (a : A) : keeps sel ok keepL (ret a).
Proof. intros env st. apply framed_refl. Qed.

Lemma keeps_throw {A} e : keeps sel ok keepL (@throw A e).
Proof. intros env st. apply framed_refl. Qed.

Lemma keeps_bind {A B} (m : M A) (k : A -> M B) :
  keeps sel ok keepL m -> (forall a, keeps sel ok keepL (k a)) ->
  keeps sel ok keepL (bind m k).
Proof.
  intros Hm Hk env st. unfold bind.
  specialize (Hm env st). destruct (m env st) as [[a|e] st1]; simpl in *.
  - eapply framed_trans; [exact Hm | apply Hk].
  - exact Hm.
Qed.

Lemma keeps_tryCatch {A} (m : M A) (h : JsError -> M A) :
  keeps sel ok keepL m -> (forall e, keeps sel ok keepL (h e)) ->
  keeps sel ok keepL (tryCatch m h).
Proof.
  intros Hm Hh env st. unfold tryCatch.
  specialize (Hm env st). destruct (m env st) as [[a|e] st1]; simpl in *.
  - exact Hm.
  - eapply framed_trans; [exact Hm | apply Hh].
Qed.

Lemma keeps_swallow m : keeps sel ok keepL m -> keeps sel ok keepL (swallow m).
Proof. intros H. apply keeps_tryCatch; [exact H | intro; apply keeps_ret]. Qed.

Lemma keeps_settle r : keeps sel ok keepL (settle r).
Proof. destruct r; [apply keeps_throw | apply keeps_ret]. Qed.

Lemma keeps_settleWith {A} (r : JsError + A) : keeps sel ok keepL (settleWith r).
Proof. destruct r; [apply keeps_throw | apply keeps_ret]. Qed.

Lemma keeps_getThis : keeps sel ok keepL getThis.
Proof. intros env st. apply framed_refl. Qed.

Lemma keeps_setThis f :
  (forall s, sel (f s) = sel s) -> keeps sel ok keepL (setThis f).
Proof.
  intros Hf env st. repeat split; simpl; auto.
  exists []. now split.
Qed.

Lemma keeps_sync {A} (ask : Env -> History -> A) entry :
  (forall r, ok (entry r) = true) -> keeps sel ok keepL (sync ask entry).
Proof. intros H env st. apply framed_call, H. Qed.

Lemma keeps_await {A} (ask : Env -> History -> A) entry :
  (forall r, ok (entry r) = true) -> keeps sel ok keepL (await ask entry).
Proof. intros H env st. apply framed_deliver, framed_call, H. Qed.

Lemma keeps_awaitNew ask entry :
  (forall r, ok (entry r) = true) -> keeps sel ok keepL (awaitNew ask entry).
Proof.
  intros H env st. unfold awaitNew.
  destruct (ask env (trace st)); simpl; apply framed_deliver.
  - apply framed_call, H.
  - eapply framed_trans; [apply framed_call, H | now apply framed_heap].
Qed.

Lemma keeps_consoleLog args :
  ok (console_log args) = true -> keeps sel ok keepL (consoleLog args).
Proof. intros H env st. apply framed_call, H. Qed.

Lemma keeps_consoleError args :
  ok (console_error args) = true -> keeps sel ok keepL (consoleError args).
Proof. intros H env st. apply framed_call, H. Qed.

Lemma keeps_delayMs ms : ok (delay ms) = true -> keeps sel ok keepL (delayMs ms).
Proof. intros H. apply keeps_await. intros _. exact H. Qed.

Lemma keeps_fresh : keeps sel ok keepL fresh.
Proof. intros env st. now apply framed_heap. Qed.

Lemma keeps_newArray : keeps sel ok keepL newArray.
Proof. intros env st. now apply framed_heap. Qed.

Lemma keeps_pushLine a line : keeps sel ok keepL (pushLine a line).
Proof. intros env st. now apply framed_heap. Qed.

Lemma keeps_readArray a : keeps sel ok keepL (readArray a).
Proof. intros env st. apply framed_refl. Qed.

Lemma keeps_newFlag : keeps sel ok keepL newFlag.
Proof. intros env st. now apply framed_heap. Qed.

Lemma keeps_readFlag f : keeps sel ok keepL (readFlag f).
Proof. intros env st. apply framed_refl. Qed.

Lemma keeps_pageOn p ev c : keeps sel ok keepL (pageOn p ev c).
Proof.
  intros env st. repeat split; simpl; auto.
  - exists []. now split.
  - intros l _ Hl. unfold push. apply in_or_app. now left.
Qed.

Lemma in_removeFirst x l ls :
  listener_eqb l x = false -> In l ls -> In l (removeFirst x ls).
Proof.
  intros Hne. induction ls as [|l' ls IH]; simpl; [tauto|].
  intros [->|Hin].
  - rewrite Hne. now left.
  - destruct (listener_eqb l' x); [exact Hin | right; auto].
Qed.

Lemma keeps_pageOff p ev c :
  (forall l, keepL l = true -> listener_eqb l (mkListener p ev c) = false) ->
  keeps sel ok keepL (pageOff p ev c).
Proof.
  intros H env st. repeat split; simpl; auto.
  - exists []. now split.
  - intros l Hk Hl. apply in_removeFirst; auto.
Qed.

Hypothesis ok_content : forall p r, ok (page_content p r) = true.
Hypothesis ok_log : forall args, ok (console_log args) = true.
Hypothesis ok_delay : forall ms, ok (delay ms) = true.

Lemma keeps_pageContent p : keeps sel ok keepL (pageContent p).
Proof.
  apply keeps_bind; [apply keeps_await, ok_content | intro; apply keeps_settleWith].
Qed.

Lemma keeps_whileChecks fuel : forall p maxChecks v,
  keeps sel ok keepL (whileChecks fuel p maxChecks v).
Proof.
  induction fuel as [|fuel IH]; intros p maxChecks v; simpl.
  - apply keeps_ret.
  - destruct (checkCounts v <=? maxChecks)%nat; [|apply keeps_ret].
    apply keeps_bind; [apply keeps_pageContent | intro html].
    apply keeps_bind; [apply keeps_consoleLog, ok_log | intros _].
    match goal with |- keeps _ _ _ (if ?b then _ else _) => destruct b end.
    + apply keeps_consoleLog, ok_log.
    + apply keeps_bind; [apply keeps_delayMs, ok_delay | intros _; apply IH].
Qed.

Lemma keeps_waitTillHTMLStable p timeout :
  keeps sel ok keepL (waitTillHTMLStable p timeout).
Proof. apply keeps_whileChecks. Qed.

End Frame.

Ltac frame_side :=
  try solve [ intros; first [reflexivity | discriminate | auto] ].

(** Derives [keeps] for code built from the primitives, by its syntax. *)
Ltac frame :=
  repeat lazymatch goal with
  | |- keeps _ _ _ (bind _ _) => apply keeps_bind; [|intro]
  | |- keeps _ _ _ (tryCatch _ _) => apply keeps_tryCatch; [|intro]
  | |- keeps _ _ _ (swallow _) => apply keeps_swallow
  | |- keeps _ _ _ (ret _) => apply keeps_ret
  | |- keeps _ _ _ (throw _) => apply keeps_throw
  | |- keeps _ _ _ (settle _) => apply keeps_settle
  | |- keeps _ _ _ (settleWith _) => apply keeps_settleWith
  | |- keeps _ _ _ getThis => apply keeps_getThis
  | |- keeps _ _ _ (setThis _) => apply keeps_setThis; frame_side
  | |- keeps _ _ _ (sync _ _) => apply keeps_sync; frame_side
  | |- keeps _ _ _ (await _ _) => apply keeps_await; frame_side
  | |- keeps _ _ _ (awaitNew _ _) => apply keeps_awaitNew; frame_side
  | |- keeps _ _ _ (consoleLog _) => apply keeps_consoleLog; frame_side
  | |- keeps _ _ _ (consoleError _) => apply keeps_consoleError; frame_side
  | |- keeps _ _ _ (delayMs _) => apply keeps_delayMs; frame_side
  | |- keeps _ _ _ fresh => apply keeps_fresh
  | |- keeps _ _ _ newArray => apply keeps_newArray
  | |- keeps _ _ _ (pushLine _ _) => apply keeps_pushLine
  | |- keeps _ _ _ (readArray _) => apply keeps_readArray
  | |- keeps _ _ _ newFlag => apply keeps_newFlag
  | |- keeps _ _ _ (readFlag _) => apply keeps_readFlag
  | |- keeps _ _ _ (pageOn _ _ _) => apply keeps_pageOn
  | |- keeps _ _ _ (pageOff _ _ _) => apply keeps_pageOff; frame_side
  | |- keeps _ _ _ (waitTillHTMLStable _ _) =>
      apply keeps_waitTillHTMLStable; frame_side
  | |- keeps _ _ _ (if ?b then _ else _) => destruct b
  | |- keeps _ _ _ (match ?x with _ => _ end) => destruct x
  end.

Lemma keeps_closeBrowser {X} (sel : BrowserSession -> X) ok keepL :
  (forall args, ok (console_log args) = true) ->
  (forall b r, ok (browser_disconnect b r) = true) ->
  (forall b r, ok (browser_close b r) = true) ->
  keeps sel ok keepL closeBrowser.
Proof. intros H1 H2 H3. unfold closeBrowser. frame. Qed.

Lemma keeps_doAction {X} (sel : BrowserSession -> X) ok keepL action :
  (forall p, keeps sel ok keepL (action p)) ->
  (forall r, ok (pWaitFor r) = true) ->
  (forall p t r, ok (page_screenshot p t r) = true) ->
  (forall args, ok (console_error args) = true) ->
  (forall p r, ok (page_url p r) = true) ->
  (forall p c l, keepL l = true -> listener_eqb l (mkListener p console c) = false) ->
  (forall p c l, keepL l = true -> listener_eqb l (mkListener p pageerror c) = false) ->
  keeps sel ok keepL (doAction action).
Proof.
  intros Ha H1 H2 H3 H4 H5 H6. unfold doAction, getCurrentScreenshot, pageScreenshot.
  frame. apply Ha.
Qed.

Lemma notRequest_off p c l :
  notRequest l = true -> listener_eqb l (mkListener p request c) = false.
Proof.
  unfold notRequest, listener_eqb. simpl.
  destruct (l_event l); simpl; try discriminate;
    intros _; now rewrite andb_false_r.
Qed.

Section EffectFrame.
Context {X : Type}.
Variable sel : BrowserSession -> X.
Variable ok : Call -> bool.
Variable keepL : Listener -> bool.
Hypothesis sel_cursor : forall c s, sel (set_currentMousePosition c s) = sel s.
Hypothesis ok_content : forall p r, ok (page_content p r) = true.
Hypothesis ok_log : forall args, ok (console_log args) = true.
Hypothesis ok_delay : forall ms, ok (delay ms) = true.
Hypothesis ok_goto : forall p u r, ok (page_goto p u r) = true.
Hypothesis ok_click : forall p x y r, ok (page_mouse_click p x y r) = true.
Hypothesis ok_type : forall p t r, ok (page_keyboard_type p t r) = true.
Hypothesis ok_evaluate : forall p t r, ok (page_evaluate_scrollBy p t r) = true.
Hypothesis ok_nav : forall p r, ok (page_waitForNavigation p r) = true.
Hypothesis keepL_request :
  forall p c l, keepL l = true -> listener_eqb l (mkListener p request c) = false.

Lemma keeps_awaitNavigation p f : keeps sel ok keepL (awaitNavigation p f).
Proof. unfold awaitNavigation. frame. Qed.

Lemma keeps_afterClick c p f : keeps sel ok keepL (afterClick c p f).
Proof. unfold afterClick. frame. apply keeps_awaitNavigation. Qed.

Lemma keeps_effect a p : keeps sel ok keepL (effect a p).
Proof.
  destruct a; unfold effect, scrollBy; frame.
  apply keeps_afterClick.
Qed.

Lemma keeps_runEffect a logs p : keeps sel ok keepL (runEffect (effect a) logs p).
Proof. unfold runEffect. frame. apply keeps_effect. Qed.

Lemma framed_afterEffect a env st p :
  framed sel ok keepL (registerListeners p st) (afterEffect a env st p).
Proof. apply keeps_runEffect. Qed.

End EffectFrame.

Section LaunchFrame.
Context {X : Type}.
Variable sel : BrowserSession -> X.
Variable ok : Call -> bool.
Variable keepL : Listener -> bool.
Hypothesis sel_browser : forall b s, sel (set_browser b s) = sel s.
Hypothesis sel_page : forall p s, sel (set_page p s) = sel s.
Hypothesis ok_json : forall r, ok (response_json r) = true.
Hypothesis ok_connect : forall ws r, ok (puppeteer_connect ws r) = true.
Hypothesis ok_error : forall args, ok (console_error args) = true.
Hypothesis ok_launch : forall a w h hl r, ok (puppeteer_launch a w h hl r) = true.
Hypothesis ok_newPage : forall b r, ok (browser_newPage b r) = true.
Hypothesis ok_url : forall p r, ok (page_url p r) = true.

Lemma keeps_openPage : keeps sel ok keepL openPage.
Proof. unfold openPage. frame. Qed.

Lemma keeps_connectFailed e : keeps sel ok keepL (connectFailed e).
Proof. unfold connectFailed. frame. Qed.

Lemma keeps_afterFetch r :
  keeps sel ok keepL (tryCatch (settle r ;; afterFetch) connectFailed ;; openPage).
Proof.
  unfold afterFetch. frame;
    first [apply keeps_connectFailed | apply keeps_openPage].
Qed.

Hypothesis ok_fetch : forall u r, ok (fetch u r) = true.

Lemma keeps_afterClose : keeps sel ok keepL afterClose.
Proof.
  unfold afterClose, connectToDebugger. frame;
    first [apply keeps_connectFailed | apply keeps_openPage].
Qed.

End LaunchFrame.

(** ** Lists of calls *)

Lemma newCalls_app st st' new :
  trace st' = (new ++ trace st)%list -> newCalls st st' = new.
Proof.
  intros H. unfold newCalls. rewrite H, length_app, Nat.add_sub.
  rewrite firstn_app, Nat.sub_diag, firstn_all. simpl. apply app_nil_r.
Qed.

Lemma screenshotAttempts_app h1 h2 :
  screenshotAttempts (h1 ++ h2)%list
  = (screenshotAttempts h2 ++ screenshotAttempts h1)%list.
Proof.
  induction h1 as [|c h1 IH]; simpl.
  - now rewrite app_nil_r.
  - destruct c; auto. rewrite IH. symmetry. apply app_assoc.
Qed.

Lemma screenshotAttempts_none h :
  forallb notScreenshot h = true -> screenshotAttempts h = [].
Proof.
  induction h as [|c h IH]; simpl; [reflexivity|].
  intros H. apply andb_prop in H as [Hc Hh].
  destruct c; auto; discriminate.
Qed.

Lemma fetchedUrls_app h1 h2 :
  fetchedUrls (h1 ++ h2)%list = (fetchedUrls h2 ++ fetchedUrls h1)%list.
Proof.
  induction h1 as [|c h1 IH]; simpl.
  - now rewrite app_nil_r.
  - destruct c; auto. rewrite IH. symmetry. apply app_assoc.
Qed.

Lemma fetchedUrls_none h : forallb notFetch h = true -> fetchedUrls h = [].
Proof.
  induction h as [|c h IH]; simpl; [reflexivity|].
  intros H. apply andb_prop in H as [Hc Hh].
  destruct c; auto; discriminate.
Qed.

(** ** waitTillHTMLStable *)

Lemma length_document n : String.length (document n) = n.
Proof. induction n as [|n IH]; simpl; [reflexivity | now rewrite IH]. Qed.

Lemma whileChecks_S fuel p maxChecks v :
  whileChecks (S fuel) p maxChecks v =
  if (checkCounts v <=? maxChecks)%nat then
    html <- pageContent p ;;
    consoleLog [LStr "last: "; LNum (lastHTMLSize v);
                LStr " <> curr: "; LNum (String.length html)] ;;
    let count :=
      if negb (lastHTMLSize v =? 0)%nat && (String.length html =? lastHTMLSize v)%nat
      then S (countStableSizeIterations v)
      else 0 in
    if (minStableSizeIterations <=? count)%nat then
      consoleLog [LStr "Page rendered fully..."]
    else
      delayMs checkDurationMsecs ;;
      whileChecks fuel p maxChecks (mkVars (String.length html) (S (checkCounts v)) count)
  else ret tt.
Proof. reflexivity. Qed.

(** Once the loop test is bound to fail before the fuel runs out, more fuel
    changes nothing: the loop of [waitTillHTMLStable] ends by its test or by
    [break]. *)
Lemma whileChecks_fuel fuel : forall p maxChecks v env st,
  maxChecks < checkCounts v + fuel ->
  whileChecks (S fuel) p maxChecks v env st = whileChecks fuel p maxChecks v env st.
Proof.
  induction fuel as [|fuel IH]; intros p maxChecks v env st Hlt.
  - simpl. destruct (Nat.leb_spec (checkCounts v) maxChecks); [lia | reflexivity].
  - rewrite (whileChecks_S (S fuel)), (whileChecks_S fuel).
    destruct (checkCounts v <=? maxChecks)%nat; [|reflexivity].
    unfold bind. destruct (pageContent p env st) as [[html|e] st1]; [|reflexivity].
    destruct (consoleLog _ env st1) as [[[]|e] st2]; [|reflexivity].
    cbv zeta.
    destruct (minStableSizeIterations <=? _)%nat; [reflexivity|].
    destruct (delayMs checkDurationMsecs env st2) as [[[]|e] st3]; [|reflexivity].
    apply IH. simpl. lia.
Qed.

Lemma waitTillHTMLStable_fuel extra p timeout env st :
  whileChecks (timeout / checkDurationMsecs + extra) p (timeout / checkDurationMsecs)
    (mkVars 0 1 0) env st
  = waitTillHTMLStable p timeout env st.
Proof.
  unfold waitTillHTMLStable. induction extra as [|extra IH].
  - now rewrite Nat.add_0_r.
  - rewrite Nat.add_succ_r, whileChecks_fuel by (simpl; lia). exact IH.
Qed.

Lemma counterAfter_step sizes k :
  counterAfter sizes k =
  if negb (prevSize sizes k =? 0)%nat && (sizeAt sizes k =? prevSize sizes k)%nat
  then S (prevCounter sizes k) else 0.
Proof.
  destruct k as [|k]; [reflexivity|]. simpl.
  destruct (Nat.eqb_spec (sizeAt sizes (S k)) (sizeAt sizes k)) as [->|Hne].
  - reflexivity.
  - now rewrite !andb_false_r.
Qed.

(** The loop against a simulated source, entered at iteration [k] with the
    variables the earlier iterations left: it breaks exactly if the counter
    reaches 3 at one of the polls that remain. *)
Lemma whileChecks_simulated sizes p maxChecks fuel : forall k v st,
  polls (trace st) = k ->
  declaredStable st = false ->
  checkCounts v = S k ->
  lastHTMLSize v = prevSize sizes k ->
  countStableSizeIterations v = prevCounter sizes k ->
  prevCounter sizes k < 3 ->
  declaredStable (snd (whileChecks fuel p maxChecks v (simulatedSource sizes) st)) = true
  <-> exists j, k <= j /\ j < k + fuel /\ j < maxChecks /\ counterAfter sizes j = 3.
Proof.
  induction fuel as [|fuel IH]; intros k v st Hk Hst Hc Hl Hn Hlt.
  - simpl. rewrite Hst. split; [discriminate | intros (j & ? & ? & _); lia].
  - rewrite whileChecks_S, Hc.
    destruct (Nat.leb_spec (S k) maxChecks) as [Hle|Hgt].
    2:{ simpl. rewrite Hst. split; [discriminate | intros (j & ? & ? & ? & _); lia]. }
    unfold bind, pageContent, bind, await, settleWith, ret, consoleLog, delayMs, await.
    cbn [simulatedSource on_content page_events quietEnv deliver fold_left trace withTrace].
    rewrite Hk, length_document, Hl, Hn.
    cbv zeta.
    rewrite <- counterAfter_step.
    destruct (Nat.leb_spec minStableSizeIterations (counterAfter sizes k)) as [Hge|Hsm].
    + cbn. split; [intros _ | reflexivity].
      exists k. repeat split; try lia.
      rewrite counterAfter_step in *.
      destruct (negb _ && _); unfold minStableSizeIterations in *; lia.
    + unfold minStableSizeIterations in Hsm.
      rewrite IH with (k := S k); cbn; try reflexivity; try lia.
      * split; intros (j & H1 & H2 & H3 & H4).
        -- exists j. repeat split; lia.
        -- exists j. repeat split; try lia.
           destruct (Nat.eq_dec j k); [subst; lia | lia].
      * exact Hst.
Qed.

(** C1 (amended).  Against a content source whose successive polls have the
    given lengths, the stabilization helper declares the page stable exactly
    when, at one of the polls its timeout allows, the counter of consecutive
    polls that are non-zero and unchanged from the previous poll (reset to
    zero by any change) reaches 3.  The first poll has no predecessor and
    counts for nothing, so this takes four consecutive polls of one non-zero
    length. *)
Theorem stable_iff_counter_reaches_three (sizes : list nat) (timeout : nat) :
  declaredStable (stabilize sizes timeout) = true
  <-> exists k, k < timeout / 500 /\ counterAfter sizes k = 3.
Proof.
  unfold stabilize, waitTillHTMLStable.
  rewrite (whileChecks_simulated sizes 0 (timeout / checkDurationMsecs)
             (timeout / checkDurationMsecs) 0); try reflexivity.
  - unfold checkDurationMsecs.
    split; intros (j & H); exists j; intuition lia.
  - simpl; lia.
Qed.

(** C1, the claim as stated fails: three polls of length 250 after one of
    length 100, the loop ending there (a timeout of 2000 ms allows four
    polls), leave the counter at 2 and stability is not declared; nor is it
    under the default timeout, when empty polls follow. *)
Lemma three_equal_polls_not_stable :
  declaredStable (stabilize [100; 250; 250; 250] 2000) = false
  /\ polls (trace (stabilize [100; 250; 250; 250] 2000)) = 4
  /\ counterAfter [100; 250; 250; 250] 3 = 2
  /\ declaredStable (stabilize [100; 250; 250; 250] defaultTimeout) = false.
Proof. vm_compute. repeat split. Qed.

(** A fourth poll of length 250 makes the page stable, at the fifth poll. *)
Example four_equal_polls_stable :
  declaredStable (stabilize [100; 250; 250; 250; 250] defaultTimeout) = true
  /\ polls (trace (stabilize [100; 250; 250; 250; 250] defaultTimeout)) = 5.
Proof. vm_compute. split; reflexivity. Qed.

(** A change after three polls of length 250 resets the counter. *)
Example change_after_three_not_stable :
  declaredStable (stabilize [100; 250; 250; 250; 400] 2500) = false
  /\ declaredStable (stabilize [100; 250; 250; 250; 400] defaultTimeout) = false.
Proof. vm_compute. split; reflexivity. Qed.

(** ** closeBrowser *)

Lemma closeBrowser_result env st : fst (closeBrowser env st) = Ok emptyResult.
Proof.
  unfold closeBrowser, bind, getThis, swallow, tryCatch, consoleLog, await, settle, ret.
  destruct (isInteractive (this st)), (browser (this st)) as [b|]; project;
    try reflexivity.
  - destruct (on_disconnect env _ b); reflexivity.
  - destruct (on_close env _ b); reflexivity.
Qed.

Lemma closeBrowser_this env st : this (snd (closeBrowser env st)) = this st.
Proof.
  apply (keeps_closeBrowser (fun s => s) anyCall noListener); reflexivity.
Qed.

(** What [closeBrowser] asks of an open browser. *)
Lemma closeBrowser_trace env st b :
  browser (this st) = Some b ->
  trace (snd (closeBrowser env st)) =
  if isInteractive (this st)
  then browser_disconnect b
         (on_disconnect env (console_log [LStr "disconnecting browser..."] :: trace st) b)
       :: console_log [LStr "disconnecting browser..."] :: trace st
  else browser_close b
         (on_close env (console_log [LStr "closing browser..."] :: trace st) b)
       :: console_log [LStr "closing browser..."] :: trace st.
Proof.
  intros Hb.
  unfold closeBrowser, bind, getThis, swallow, tryCatch, consoleLog, await, settle,
    ret, throw.
  rewrite Hb.
  destruct (isInteractive (this st)); project.
  - destruct (on_disconnect env _ b); project; reflexivity.
  - destruct (on_close env _ b); project; reflexivity.
Qed.

(** C9.  In every world and from every state of the session (never
    launched, launched or attached, already closed, with a browser whose
    [close] or [disconnect] rejects), [closeBrowser] throws nothing and
    returns the empty result, and so does a second [closeBrowser] after
    it. *)
Theorem closeBrowser_never_fails env st :
  fst (closeBrowser env st) = Ok emptyResult
  /\ fst (closeBrowser env (snd (closeBrowser env st))) = Ok emptyResult.
Proof. split; apply closeBrowser_result. Qed.

(** ** doAction *)

Lemma execute_doAction a : execute a = doAction (effect a).
Proof. destruct a; reflexivity. Qed.

Lemma doAction_parts action env st p :
  page (this st) = Some p ->
  doAction action env st =
  (runEffect action (nextId st) p ;; finishAction (nextId st)) env (registerListeners p st).
Proof.
  intros Hp. unfold doAction, bind at 1, getThis. rewrite Hp. reflexivity.
Qed.

Lemma doAction_no_page action env st :
  page (this st) = None ->
  doAction action env st = (Throw (newError noActivePageMessage), st).
Proof.
  intros Hp. unfold doAction, bind at 1, getThis. rewrite Hp. reflexivity.
Qed.

Lemma runEffect_ok action a p env st :
  fst (runEffect action a p env st) = Ok tt.
Proof.
  unfold runEffect, tryCatch.
  destruct (action p env st) as [[[]|e] st1]; [reflexivity|].
  destruct (negb _); reflexivity.
Qed.

Lemma runEffect_heapOnly action a p env st :
  heapOnly (snd (action p env st)) (snd (runEffect action a p env st)).
Proof.
  unfold runEffect, tryCatch.
  destruct (action p env st) as [[[]|e] st1]; [apply heapOnly_refl|].
  destruct (negb _); repeat split.
Qed.

Lemma finishAction_cases a env st p :
  page (this st) = Some p ->
  Finished a st p (fst (finishAction a env st)) (snd (finishAction a env st)).
Proof.
  intros Hp.
  unfold finishAction, swallow, getCurrentScreenshot, pageScreenshot.
  unfold bind, tryCatch, await, sync, settle, settleWith, getThis, ret, throw,
    consoleError, pageOff, readArray.
  destruct (on_pWaitFor env (trace st)) as [e0|]; project; rewrite Hp; project.
  all: destruct (on_screenshot env _ p webp) as [e1|d1]; project;
    cbn [truthy isEmpty append negb]; project; rewrite ?Hp; project.
  all: try (destruct (on_screenshot env _ p png) as [e2|d2]; project;
    cbn [truthy isEmpty append negb]; project; rewrite ?Hp; project).
  all: first [ solve [eapply FinishedNone; project; reflexivity]
             | solve [eapply FinishedPng;
                      cbn [screenshot logs currentUrl resultMousePosition];
                      project; reflexivity]
             | solve [eapply FinishedWebp;
                      cbn [screenshot logs currentUrl resultMousePosition];
                      project; reflexivity] ].
Qed.

Lemma execute_parts a env st p :
  page (this st) = Some p ->
  execute a env st = finishAction (nextId st) env (afterEffect a env st p).
Proof.
  intros Hp. rewrite execute_doAction, (doAction_parts _ _ _ p Hp).
  unfold bind at 1, afterEffect.
  pose proof (runEffect_ok (effect a) (nextId st) p env (registerListeners p st)) as Hok.
  destruct (runEffect _ _ _ _ _) as [[[]|e] st1]; [reflexivity | discriminate].
Qed.

Lemma page_afterEffect a env st p :
  page (this st) = Some p -> page (this (afterEffect a env st p)) = Some p.
Proof.
  intros Hp.
  destruct (framed_afterEffect page anyCall noListener) with (a := a) (env := env)
    (st := st) (p := p) as (Hs & _); try reflexivity; try discriminate.
  rewrite Hs. exact Hp.
Qed.

Lemma execute_finished a env st p :
  page (this st) = Some p ->
  Finished (nextId st) (afterEffect a env st p) p
    (fst (execute a env st)) (snd (execute a env st)).
Proof.
  intros Hp. rewrite (execute_parts a env st p Hp).
  apply finishAction_cases, page_afterEffect, Hp.
Qed.

(** C2, the code at the claim's input.  [closeBrowser] leaves
    [this.page] as it was, so on a session that had a page every action
    issued after the close passes the guard of [doAction]: whatever the
    world answers, the action does not fail with the no-active-page
    error. *)
Theorem action_after_close_finds_page a env st p :
  page (this st) = Some p ->
  page (this (snd (closeBrowser env st))) = Some p
  /\ fst (execute a env (snd (closeBrowser env st)))
     <> Throw (newError noActivePageMessage).
Proof.
  intros Hp.
  assert (Hp' : page (this (snd (closeBrowser env st))) = Some p)
    by (now rewrite closeBrowser_this).
  split; [exact Hp'|].
  destruct (execute_finished a env _ p Hp'); discriminate.
Qed.

Lemma action_after_close_finds_page_witness :
  page (this (launched quietEnv)) = Some 1
  /\ fst (execute (TypeText "a") quietEnv (snd (closeBrowser quietEnv (launched quietEnv))))
     <> Throw (newError noActivePageMessage).
Proof.
  split; [reflexivity|].
  apply (action_after_close_finds_page (TypeText "a") quietEnv (launched quietEnv) 1).
  reflexivity.
Defined.

(** C7.  Every action run on a session with a page makes one or two
    screenshot attempts and no other: first webp; png only after webp
    threw; the result carries the data URI of the format that succeeded; and
    when both threw the action throws the screenshot error, returning no
    result at all. *)
Theorem screenshot_fallback a env st p :
  page (this st) = Some p ->
  match screenshotAttempts (newCalls st (snd (execute a env st))) with
  | [(webp, inr d)] =>
      exists res, fst (execute a env st) = Ok res
                  /\ screenshot res = Some ("data:image/webp;base64," ++ d)
  | [(webp, inl _); (png, inr d)] =>
      exists res, fst (execute a env st) = Ok res
                  /\ screenshot res = Some ("data:image/png;base64," ++ d)
  | [(webp, inl _); (png, inl _)] =>
      fst (execute a env st) = Throw (newError screenshotFailedMessage)
  | _ => False
  end.
Proof.
  intros Hp.
  destruct (framed_afterEffect page notScreenshot noListener) with (a := a) (env := env)
    (st := st) (p := p) as (_ & (new & Hnew & Hok) & _);
    try reflexivity; try discriminate.
  change (trace (registerListeners p st)) with (trace st) in Hnew.
  apply screenshotAttempts_none in Hok.
  destruct (execute_finished a env st p Hp) as [r d u res st' Ht _ _ Hs _ _ _
                                               |r e d u res st' Ht _ _ Hs _ _ _
                                               |r e e' st' Ht _ _];
    rewrite Hnew in Ht;
    match type of Ht with
    | trace _ = ?c1 :: ?c2 :: ?c3 :: ?c4 :: (new ++ _)%list =>
        rewrite (newCalls_app st st' ([c1; c2; c3; c4] ++ new)%list)
          by (rewrite Ht; reflexivity)
    | trace _ = ?c1 :: ?c2 :: ?c3 :: (new ++ _)%list =>
        rewrite (newCalls_app st st' ([c1; c2; c3] ++ new)%list)
          by (rewrite Ht; reflexivity)
    end;
    rewrite screenshotAttempts_app, Hok; simpl; eauto.
Qed.

Lemma screenshot_fallback_witness :
  page (this (launched blindEnv)) = Some 1
  /\ fst (execute ScrollDown blindEnv (launched blindEnv))
     = Throw (newError screenshotFailedMessage).
Proof.
  split; [reflexivity|].
  exact (screenshot_fallback ScrollDown blindEnv (launched blindEnv) 1 eq_refl).
Defined.

(** C3, the code at the claim's input.  When both screenshot formats fail,
    [doAction] throws before it reaches its two [page.off] calls: the
    console and page-error listeners it registered (those that capture the
    array it allocated) are still registered when the call has failed. *)
Theorem listeners_survive_failed_screenshot a env st p :
  page (this st) = Some p ->
  fst (execute a env st) = Throw (newError screenshotFailedMessage) ->
  In (mkListener p console (consoleListener (nextId st)))
     (listeners (snd (execute a env st)))
  /\ In (mkListener p pageerror (errorListener (nextId st)))
        (listeners (snd (execute a env st))).
Proof.
  intros Hp Hfail.
  destruct (framed_afterEffect page anyCall notRequest) with (a := a) (env := env)
    (st := st) (p := p) as (_ & _ & Hl);
    try reflexivity; try (intros; now apply notRequest_off).
  destruct (execute_finished a env st p Hp) as [| |r e e' st' _ _ Hls];
    try discriminate.
  rewrite Hls. split; apply Hl; try reflexivity; simpl; unfold push;
    rewrite !in_app_iff; simpl; tauto.
Qed.

Lemma listeners_survive_failed_screenshot_witness :
  listeners (launched blindEnv) = []
  /\ In (mkListener 1 console (consoleListener 2))
        (listeners (snd (execute (TypeText "a") blindEnv (launched blindEnv))))
  /\ In (mkListener 1 pageerror (errorListener 2))
        (listeners (snd (execute (TypeText "a") blindEnv (launched blindEnv)))).
Proof.
  split; [reflexivity|].
  apply (listeners_survive_failed_screenshot (TypeText "a") blindEnv (launched blindEnv) 1);
    reflexivity.
Defined.

(** The surviving listener goes on collecting the console output of the
    page during a later action, into the array of the action that failed. *)
Example surviving_listener_hears_later_action :
  let st1 := snd (execute (TypeText "a") blindEnv (launched blindEnv)) in
  let st2 := snd (execute (TypeText "b") blindEnv st1) in
  List.length (arrays st1 2) = 4 /\ List.length (arrays st2 2) = 8
  /\ List.length (listeners st2) = 4.
Proof. vm_compute. repeat split. Qed.

(** ** click *)

Lemma awaitNavigation_framed p f env st :
  framed (fun s => s) anyCall noListener st (snd (awaitNavigation p f env st)).
Proof. apply keeps_awaitNavigation; try reflexivity; discriminate. Qed.

(** The closure of [click]: the call it dispatches, and what becomes of the
    session fields. *)
Lemma click_effect c p env st :
  let r := on_click env (trace st) p (clickX c) (clickY c) in
  let st1 := snd (effect (ClickAt c) p env st) in
  (exists later,
     trace st1 = (later ++ page_mouse_click p (clickX c) (clickY c) r :: trace st)%list)
  /\ this st1 = match r with
                | None => set_currentMousePosition c (this st)
                | Some _ => this st
                end.
Proof.
  cbv zeta. unfold effect.
  unfold bind at 1 2 3 4, newFlag, bind, fresh, pageOn, await, settle. project.
  destruct (on_click env (trace st) p (clickX c) (clickY c)) as [e|];
    unfold throw, ret; project.
  - split; [exists []; reflexivity | reflexivity].
  - unfold afterClick, bind, setThis. project.
    match goal with
    | |- context [awaitNavigation ?q ?f env ?s] =>
        destruct (awaitNavigation_framed q f env s) as (Hs & (later & Ht & _) & _)
    end.
    cbn beta in Hs. rewrite Hs, Ht. project.
    split; [exists later; reflexivity | reflexivity].
Qed.

Lemma click_run c env st p :
  page (this st) = Some p ->
  let r := on_click env (trace st) p (clickX c) (clickY c) in
  (exists later,
     trace (snd (click c env st))
     = (later ++ page_mouse_click p (clickX c) (clickY c) r :: trace st)%list)
  /\ this (snd (click c env st)) = match r with
                                   | None => set_currentMousePosition c (this st)
                                   | Some _ => this st
                                   end
  /\ (fst (click c env st) = Throw (newError screenshotFailedMessage)
      \/ exists res, fst (click c env st) = Ok res).
Proof.
  intros Hp r.
  change (click c) with (execute (ClickAt c)).
  pose proof (execute_finished (ClickAt c) env st p Hp) as Hfin.
  destruct (click_effect c p env (registerListeners p st)) as ((later & Ht) & Hs).
  destruct (runEffect_heapOnly (effect (ClickAt c)) (nextId st) p env (registerListeners p st))
    as (Hs' & Ht' & _).
  fold (afterEffect (ClickAt c) env st p) in Hs', Ht'.
  rewrite Hs in Hs'. rewrite Ht in Ht'.
  change (trace (registerListeners p st)) with (trace st) in *.
  change (this (registerListeners p st)) with (this st) in *.
  fold r in Hs', Ht'.
  destruct Hfin as [r0 d u res st' Ht0 Hs0 _ _ _ _ _
                   |r0 e d u res st' Ht0 Hs0 _ _ _ _ _
                   |r0 e e' st' Ht0 Hs0 _];
    rewrite Ht' in Ht0; rewrite Hs' in Hs0; rewrite Ht0, Hs0.
  - split; [|split; [reflexivity | right; eauto]].
    exists ([page_url p u; page_screenshot p webp (inr d); pWaitFor r0] ++ later)%list.
    now rewrite <- app_assoc.
  - split; [|split; [reflexivity | right; eauto]].
    exists ([page_url p u; page_screenshot p png (inr d);
             page_screenshot p webp (inl e); pWaitFor r0] ++ later)%list.
    now rewrite <- app_assoc.
  - split; [|split; [reflexivity | left; reflexivity]].
    exists ([console_error [LStr "Failed to take screenshot:"; LErr e'];
             page_screenshot p png (inl e');
             page_screenshot p webp (inl e); pWaitFor r0] ++ later)%list.
    now rewrite <- app_assoc.
Qed.

(** C6 (amended).  On a session with a page, when the dispatch of the
    pointer click does not reject, the stored cursor position after [click]
    is the coordinate string it was given, whatever the click hit or
    triggered and whatever failed afterwards; when the dispatch rejects, the
    stored position is left as it was. *)
Theorem click_stores_position_once_dispatched c env st p :
  page (this st) = Some p ->
  (on_click env (trace st) p (clickX c) (clickY c) = None ->
   currentMousePosition (this (snd (click c env st))) = Some c)
  /\ (forall e, on_click env (trace st) p (clickX c) (clickY c) = Some e ->
      currentMousePosition (this (snd (click c env st)))
      = currentMousePosition (this st)).
Proof.
  intros Hp. destruct (click_run c env st p Hp) as (_ & Hs & _).
  split; [intros E | intros e E]; rewrite E in Hs; rewrite Hs; reflexivity.
Qed.

Lemma click_stores_position_once_dispatched_witness :
  page (this (launched blindEnv)) = Some 1
  /\ currentMousePosition (this (snd (click "10,20" blindEnv (launched blindEnv))))
     = Some "10,20".
Proof.
  split; [reflexivity|].
  exact (proj1 (click_stores_position_once_dispatched "10,20" blindEnv
                  (launched blindEnv) 1 eq_refl) eq_refl).
Defined.

(** C6, the claim as stated fails: with a well-formed coordinate and a page,
    a click whose dispatch the browser rejects leaves the stored position
    absent. *)
Lemma rejected_click_keeps_old_position :
  isCoordinate "10,20" = true
  /\ page (this (launched deadPointerEnv)) = Some 1
  /\ currentMousePosition
       (this (snd (click "10,20" deadPointerEnv (launched deadPointerEnv))))
     <> Some "10,20".
Proof.
  split; [reflexivity|]. split; [reflexivity|].
  vm_compute. discriminate.
Qed.

(** ** launchBrowser *)

Lemma launchBrowser_phases interactive port env st :
  launchBrowser interactive port env st
  = (closePrior ;; afterClose) env (beginLaunch interactive port st).
Proof.
  unfold beginLaunch. destruct port as [value|]; [destruct (truthy (Some value)) eqn:E|].
  - unfold launchBrowser. rewrite E. reflexivity.
  - unfold launchBrowser. rewrite E. reflexivity.
  - reflexivity.
Qed.

Lemma closePrior_open {A} (k : M A) env st b :
  browser (this st) = Some b ->
  (closePrior ;; k) env st = k env (snd (closeBrowser env st)).
Proof.
  intros Hb. unfold closePrior, bind, getThis. rewrite Hb.
  pose proof (closeBrowser_result env st) as Hok.
  destruct (closeBrowser env st) as [[r|e] st2]; simpl in *;
    [reflexivity | discriminate].
Qed.

Lemma closePrior_none {A} (k : M A) env st :
  browser (this st) = None -> (closePrior ;; k) env st = k env st.
Proof. intros Hb. unfold closePrior, bind, getThis. now rewrite Hb. Qed.

Lemma beginLaunch_trace i port st :
  trace (beginLaunch i port st) = console_log [LStr "launch browser called"] :: trace st.
Proof.
  unfold beginLaunch. destruct port as [v|]; [destruct (truthy (Some v))|]; reflexivity.
Qed.

Lemma beginLaunch_this i port st :
  this (beginLaunch i port st) =
  mkSession (browser (this st)) (page (this st)) (currentMousePosition (this st)) i
    (match port with
     | Some v => if truthy port then v else browserPort (this st)
     | None => browserPort (this st)
     end).
Proof.
  unfold beginLaunch. destruct port as [v|]; [destruct (truthy (Some v))|]; reflexivity.
Qed.

(** C4, the code at the claim's input.  [launchBrowser] stores the
    requested mode before it closes the prior browser, and [closeBrowser]
    goes by the stored mode: relaunching in interactive mode a session whose
    browser was launched (not attached) disconnects from that browser, and
    no call made by the relaunch closes any browser. *)
Theorem relaunch_closes_by_requested_mode env st b port :
  browser (this st) = Some b ->
  isInteractive (this st) = false ->
  (exists r, In (browser_disconnect b r)
               (newCalls st (snd (launchBrowser true port env st))))
  /\ forallb notClose (newCalls st (snd (launchBrowser true port env st))) = true.
Proof.
  intros Hb _.
  rewrite launchBrowser_phases.
  set (st1 := beginLaunch true port st).
  assert (Hb1 : browser (this st1) = Some b)
    by (unfold st1; rewrite beginLaunch_this; exact Hb).
  rewrite (closePrior_open _ _ _ b Hb1).
  pose proof (closeBrowser_trace env st1 b Hb1) as Ht.
  assert (Hi : isInteractive (this st1) = true)
    by (unfold st1; rewrite beginLaunch_this; reflexivity).
  assert (Htr : trace st1 = console_log [LStr "launch browser called"] :: trace st)
    by apply beginLaunch_trace.
  rewrite Hi, Htr in Ht.
  destruct (keeps_afterClose (fun _ => tt) notClose noListener) with (env := env)
    (st := snd (closeBrowser env st1)) as (_ & (new & Hnew & Hok) & _);
    try reflexivity.
  rewrite Ht in Hnew.
  match type of Hnew with
  | _ = (new ++ ?c1 :: ?c2 :: ?c3 :: _)%list =>
      rewrite (newCalls_app st _ (new ++ [c1; c2; c3])%list)
        by (rewrite Hnew, <- app_assoc; reflexivity)
  end.
  split.
  - eexists. apply in_or_app. right. left. reflexivity.
  - rewrite forallb_app, Hok. reflexivity.
Qed.

Lemma relaunch_closes_by_requested_mode_witness :
  browser (this (launched quietEnv)) = Some 0
  /\ isInteractive (this (launched quietEnv)) = false
  /\ forallb notClose
       (newCalls (launched quietEnv)
          (snd (launchBrowser true (Some "9222") quietEnv (launched quietEnv)))) = true.
Proof.
  split; [reflexivity|]. split; [reflexivity|].
  exact (proj2 (relaunch_closes_by_requested_mode quietEnv (launched quietEnv) 0
                  (Some "9222") eq_refl eq_refl)).
Defined.

(** The same slip the other way round: relaunching in private mode a
    session attached to the user's browser closes that browser. *)
Example relaunch_closes_attached_browser :
  let attached := snd (launchBrowser true (Some "9222") quietEnv initialState) in
  browser (this attached) = Some 0
  /\ In (browser_close 0 None)
        (newCalls attached (snd (launchBrowser false None quietEnv attached))).
Proof. vm_compute. tauto. Qed.

(** The message of a failed attach is built from the message of the error
    caught and a fixed text. *)
Lemma launch_fetch_failure env st port e :
  browser (this st) = None ->
  on_fetch env (console_log [LStr "launch browser called"] :: trace st)
    (versionUrl (browserPort (this (beginLaunch true port st)))) = Some e ->
  fst (launchBrowser true port env st)
  = Throw (newError (connectFailureMessage (errMessage e))).
Proof.
  intros Hb Hf.
  rewrite launchBrowser_phases, closePrior_none
    by (rewrite beginLaunch_this; exact Hb).
  remember (beginLaunch true port st) as st1 eqn:E.
  assert (Hi : isInteractive (this st1) = true)
    by (rewrite E, beginLaunch_this; reflexivity).
  assert (Htr : trace st1 = console_log [LStr "launch browser called"] :: trace st)
    by (rewrite E; apply beginLaunch_trace).
  unfold afterClose, tryCatch, connectToDebugger, bind, getThis, await, settle.
  cbv beta iota. rewrite Hi. cbv beta iota. rewrite Htr, Hf. reflexivity.
Qed.

(** C8, the code at the claim's input.  Launching in interactive mode on
    port 9222 when nothing answers there fails with a message that does not
    mention 9222 and tells the caller to run a browser with
    [--remote-debugging-port=7333]; when the version document lacks the
    endpoint, the message mentions 9222 and still names port 7333 in its
    instruction. *)
Theorem connection_error_names_default_port :
  (exists e,
     fst (launchBrowser true (Some "9222") unreachableEnv initialState) = Throw e
     /\ errMessage e = connectFailureMessage "fetch failed"
     /\ contains "9222" (errMessage e) = false
     /\ contains "--remote-debugging-port=7333" (errMessage e) = true)
  /\ (exists e,
        fst (launchBrowser true (Some "9222") noEndpointEnv initialState) = Throw e
        /\ errMessage e = connectFailureMessage (missingEndpointMessage "9222")
        /\ contains "port: 9222" (errMessage e) = true
        /\ contains "--remote-debugging-port=9222" (errMessage e) = false
        /\ contains "--remote-debugging-port=7333" (errMessage e) = true).
Proof.
  split; eexists; (split; [vm_compute; reflexivity|]); vm_compute; repeat split.
Qed.

(** ** The debugging port *)

Lemma perform_port c env st :
  browserPort (this (snd (perform c env st))) = portAfter (browserPort (this st)) c.
Proof.
  destruct c as [interactive port| |a]; simpl.
  - rewrite launchBrowser_phases.
    assert (K : keeps browserPort anyCall noListener (closePrior ;; afterClose)).
    { unfold closePrior. frame.
      - apply keeps_closeBrowser; reflexivity.
      - apply keeps_afterClose; reflexivity. }
    destruct (K env (beginLaunch interactive port st)) as (Hs & _).
    rewrite Hs, beginLaunch_this. destruct port; reflexivity.
  - destruct (keeps_closeBrowser browserPort anyCall noListener) with (env := env) (st := st)
      as (Hs & _); try reflexivity. exact Hs.
  - rewrite execute_doAction.
    destruct (keeps_doAction browserPort anyCall noListener (effect a)) with (env := env)
      (st := st) as (Hs & _); try reflexivity; try discriminate.
    + intros p. apply keeps_effect; try reflexivity; discriminate.
    + exact Hs.
Qed.

Lemma runSession_port calls : forall env st,
  browserPort (this (runSession calls env st))
  = fold_left portAfter calls (browserPort (this st)).
Proof.
  induction calls as [|c calls IH]; intros env st; simpl; [reflexivity|].
  now rewrite IH, perform_port.
Qed.

(** An attaching launch that names no port fetches the version document
    once, from the port stored in the session. *)
Lemma launch_fetches_stored_port env st :
  fetchedUrls (newCalls st (snd (launchBrowser true None env st)))
  = [versionUrl (browserPort (this st))].
Proof.
  rewrite launchBrowser_phases.
  set (st1 := beginLaunch true None st).
  assert (Hrun : exists st2,
             (closePrior ;; afterClose) env st1 = afterClose env st2
             /\ framed (fun s => (browserPort s, isInteractive s)) notFetch noListener
                  st1 st2).
  { destruct (browser (this st1)) as [b|] eqn:Hb.
    - exists (snd (closeBrowser env st1)). split; [now apply closePrior_open with (b := b)|].
      apply keeps_closeBrowser; reflexivity.
    - exists st1. split; [now apply closePrior_none | apply framed_refl]. }
  destruct Hrun as (st2 & -> & Hs & (new2 & Ht2 & Hok2) & _).
  change (trace st1) with (console_log [LStr "launch browser called"] :: trace st) in Ht2.
  change (this st1) with (set_isInteractive true (this st)) in Hs.
  injection Hs as Hport Hint. simpl in Hport, Hint.
  set (url := versionUrl (browserPort (this st2))).
  set (r := on_fetch env (trace st2) url).
  set (st3 := deliver (page_events env (fetch url r :: trace st2))
                (withTrace (cons (fetch url r)) st2)).
  assert (Hstep : afterClose env st2
                  = (tryCatch (settle r ;; afterFetch) connectFailed ;; openPage) env st3).
  { unfold afterClose. unfold bind at 1. unfold getThis at 1. rewrite Hint.
    reflexivity. }
  rewrite Hstep.
  destruct (keeps_afterFetch (fun _ => tt) notFetch noListener) with (r := r) (env := env)
    (st := st3) as (_ & (new3 & Ht3 & Hok3) & _); try reflexivity.
  unfold st3 in Ht3 at 2. rewrite trace_deliver in Ht3. cbn [trace withTrace] in Ht3.
  rewrite Ht2 in Ht3.
  rewrite (newCalls_app st _ (new3 ++ fetch url r :: new2
                              ++ [console_log [LStr "launch browser called"]])%list).
  - rewrite fetchedUrls_app. simpl. rewrite fetchedUrls_app.
    rewrite (fetchedUrls_none new2 Hok2), (fetchedUrls_none new3 Hok3). simpl.
    unfold url. now rewrite Hport.
  - rewrite Ht3. rewrite <- app_assoc. simpl. rewrite <- app_assoc. reflexivity.
Qed.

(** C10.  After any sequence of calls on a new session, in any world and
    whatever those calls returned or threw, an interactive launch that omits
    the port fetches the version document exactly once, from the port
    supplied by the most recent launch that supplied one (an empty string
    counts as none supplied), or from 7333 when no launch has supplied
    one. *)
Theorem port_is_sticky env calls :
  let st := runSession calls env initialState in
  fetchedUrls (newCalls st (snd (launchBrowser true None env st)))
  = [versionUrl (stickyPort calls)].
Proof.
  cbv zeta. rewrite launch_fetches_stored_port, runSession_port. reflexivity.
Qed.

Example sticky_port_9222 :
  stickyPort [CallLaunch false (Some "9222"); CallAction (TypeText "a"); CallClose;
              CallLaunch true None; CallLaunch false (Some EmptyString)] = "9222"
  /\ stickyPort [CallLaunch false None; CallClose] = "7333".
Proof. split; reflexivity. Qed.

(** ** Step rules *)

Section Steps.
Context {P : Env -> Prop} {R : State -> State -> Prop} `{SW : Stepwise P R}.

Lemma respects_ret {A} (a : A) : respectsIn P R (ret a).
Proof. intros env st _. apply step_refl. Qed.

Lemma respects_throw {A} e : respectsIn P R (@throw A e).
Proof. intros env st _. apply step_refl. Qed.

Lemma respects_bind {A B} (m : M A) (k : A -> M B) :
  respectsIn P R m -> (forall a, respectsIn P R (k a)) -> respectsIn P R (bind m k).
Proof.
  intros Hm Hk env st HP. unfold bind.
  specialize (Hm env st HP). destruct (m env st) as [[a|e] st1]; simpl in *.
  - eapply step_trans; [exact Hm | now apply Hk].
  - exact Hm.
Qed.

Lemma respects_tryCatch {A} (m : M A) (h : JsError -> M A) :
  respectsIn P R m -> (forall e, respectsIn P R (h e)) -> respectsIn P R (tryCatch m h).
Proof.
  intros Hm Hh env st HP. unfold tryCatch.
  specialize (Hm env st HP). destruct (m env st) as [[a|e] st1]; simpl in *.
  - exact Hm.
  - eapply step_trans; [exact Hm | now apply Hh].
Qed.

Lemma respects_swallow m : respectsIn P R m -> respectsIn P R (swallow m).
Proof. intros H. apply respects_tryCatch; [exact H | intro; apply respects_ret]. Qed.

Lemma respects_settle r : respectsIn P R (settle r).
Proof. destruct r; [apply respects_throw | apply respects_ret]. Qed.

Lemma respects_settleWith {A} (r : JsError + A) : respectsIn P R (settleWith r).
Proof. destruct r; [apply respects_throw | apply respects_ret]. Qed.

Lemma respects_getThis : respectsIn P R getThis.
Proof. intros env st _. apply step_refl. Qed.

Lemma respects_setThis f : respectsIn P R (setThis f).
Proof. intros env st _. apply (step_this (P := P)). Qed.

Lemma respects_sync {A} (ask : Env -> History -> A) entry : respectsIn P R (sync ask entry).
Proof. intros env st _. apply (step_trace (P := P)). Qed.

Lemma respects_await {A} (ask : Env -> History -> A) entry :
  respectsIn P R (await ask entry).
Proof.
  intros env st HP. unfold await. simpl.
  eapply step_trans; [apply (step_trace (P := P)) | now apply step_events].
Qed.

Lemma respects_consoleLog args : respectsIn P R (consoleLog args).
Proof. intros env st _. apply (step_trace (P := P)). Qed.

Lemma respects_consoleError args : respectsIn P R (consoleError args).
Proof. intros env st _. apply (step_trace (P := P)). Qed.

Lemma respects_delayMs ms : respectsIn P R (delayMs ms).
Proof. apply respects_await. Qed.

Lemma respects_readArray a : respectsIn P R (readArray a).
Proof. intros env st _. apply step_refl. Qed.

Lemma respects_readFlag f : respectsIn P R (readFlag f).
Proof. intros env st _. apply step_refl. Qed.

Lemma respects_pageContent p : respectsIn P R (pageContent p).
Proof.
  apply respects_bind; [apply respects_await | intro; apply respects_settleWith].
Qed.

Lemma respects_whileChecks fuel : forall p maxChecks v,
  respectsIn P R (whileChecks fuel p maxChecks v).
Proof.
  induction fuel as [|fuel IH]; intros p maxChecks v; simpl.
  - apply respects_ret.
  - destruct (checkCounts v <=? maxChecks)%nat; [|apply respects_ret].
    apply respects_bind; [apply respects_pageContent | intro html].
    apply respects_bind; [apply respects_consoleLog | intros _].
    match goal with |- respectsIn _ _ (if ?b then _ else _) => destruct b end.
    + apply respects_consoleLog.
    + apply respects_bind; [apply respects_delayMs | intros _; apply IH].
Qed.

Lemma respects_waitTillHTMLStable p timeout :
  respectsIn P R (waitTillHTMLStable p timeout).
Proof. apply respects_whileChecks. Qed.

Lemma respects_fresh `{!AllowsAlloc R} : respectsIn P R fresh.
Proof. intros env st _. apply allows_alloc. Qed.

Lemma respects_awaitNew `{!AllowsAlloc R} ask entry : respectsIn P R (awaitNew ask entry).
Proof.
  intros env st HP. unfold awaitNew.
  destruct (ask env (trace st)); simpl.
  - eapply step_trans; [apply (step_trace (P := P)) | now apply step_events].
  - eapply step_trans; [apply (step_trace (P := P))|].
    eapply step_trans; [apply allows_alloc | now apply step_events].
Qed.

Lemma respects_newArray `{!AllowsAlloc R} `{!AllowsArrays R} : respectsIn P R newArray.
Proof.
  intros env st _. unfold newArray, bind, fresh. simpl.
  eapply step_trans; [apply allows_alloc | apply allows_arrays].
Qed.

Lemma respects_pushLine `{!AllowsArrays R} a line : respectsIn P R (pushLine a line).
Proof. intros env st _. apply allows_arrays. Qed.

Lemma respects_newFlag `{!AllowsAlloc R} `{!AllowsFlags R} : respectsIn P R newFlag.
Proof.
  intros env st _. unfold newFlag, bind, fresh. simpl.
  eapply step_trans; [apply allows_alloc | apply allows_flags].
Qed.

Lemma respects_pageOn `{!AllowsOn R} p ev c : respectsIn P R (pageOn p ev c).
Proof. intros env st _. apply allows_on. Qed.

Lemma respects_pageOff `{!AllowsOff R} p ev c : respectsIn P R (pageOff p ev c).
Proof. intros env st _. apply allows_off. Qed.

End Steps.

(** Derives [respectsIn] for code built from the primitives the relation
    allows. *)
Ltac steps :=
  repeat lazymatch goal with
  | |- respectsIn _ _ (bind _ _) => apply respects_bind; [|intro]
  | |- respectsIn _ _ (tryCatch _ _) => apply respects_tryCatch; [|intro]
  | |- respectsIn _ _ (swallow _) => apply respects_swallow
  | |- respectsIn _ _ (ret _) => apply respects_ret
  | |- respectsIn _ _ (throw _) => apply respects_throw
  | |- respectsIn _ _ (settle _) => apply respects_settle
  | |- respectsIn _ _ (settleWith _) => apply respects_settleWith
  | |- respectsIn _ _ getThis => apply respects_getThis
  | |- respectsIn _ _ (setThis _) => apply respects_setThis
  | |- respectsIn _ _ (sync _ _) => apply respects_sync
  | |- respectsIn _ _ (await _ _) => apply respects_await
  | |- respectsIn _ _ (awaitNew _ _) => apply respects_awaitNew
  | |- respectsIn _ _ (consoleLog _) => apply respects_consoleLog
  | |- respectsIn _ _ (consoleError _) => apply respects_consoleError
  | |- respectsIn _ _ (delayMs _) => apply respects_delayMs
  | |- respectsIn _ _ fresh => apply respects_fresh
  | |- respectsIn _ _ newArray => apply respects_newArray
  | |- respectsIn _ _ (pushLine _ _) => apply respects_pushLine
  | |- respectsIn _ _ (readArray _) => apply respects_readArray
  | |- respectsIn _ _ newFlag => apply respects_newFlag
  | |- respectsIn _ _ (readFlag _) => apply respects_readFlag
  | |- respectsIn _ _ (pageOn _ _ _) => apply respects_pageOn
  | |- respectsIn _ _ (pageOff _ _ _) => apply respects_pageOff
  | |- respectsIn _ _ (waitTillHTMLStable _ _) => apply respects_waitTillHTMLStable
  | |- respectsIn _ _ (if ?b then _ else _) => destruct b
  | |- respectsIn _ _ (match ?x with _ => _ end) => destruct x
  end.

(** *** The relations *)

#[local] Instance sameListeners_stepwise : Stepwise anyEnv sameListeners.
Proof.
  split; unfold sameListeners; try reflexivity.
  - intros; congruence.
  - intros. apply listeners_deliver.
Qed.

#[local] Instance sameListeners_alloc : AllowsAlloc sameListeners.
Proof. intros st. reflexivity. Qed.
#[local] Instance sameListeners_arrays : AllowsArrays sameListeners.
Proof. intros f st. reflexivity. Qed.
#[local] Instance sameListeners_flags : AllowsFlags sameListeners.
Proof. intros f st. reflexivity. Qed.

#[local] Instance shrinks_stepwise : Stepwise anyEnv shrinks.
Proof.
  split; unfold shrinks.
  - intros; split; auto.
  - intros st1 st2 st3 [H1 H2] [H3 H4]. split; [lia | auto].
  - intros; split; auto.
  - intros; split; auto.
  - intros. rewrite nextId_deliver, listeners_deliver. split; auto.
Qed.

#[local] Instance shrinks_alloc : AllowsAlloc shrinks.
Proof. intros st. split; simpl; auto. Qed.
#[local] Instance shrinks_arrays : AllowsArrays shrinks.
Proof. intros f st. split; simpl; auto. Qed.
#[local] Instance shrinks_flags : AllowsFlags shrinks.
Proof. intros f st. split; simpl; auto. Qed.

Lemma in_removeFirst_in x l ls : In l (removeFirst x ls) -> In l ls.
Proof.
  induction ls as [|l' ls IH]; simpl; [tauto|].
  destruct (listener_eqb l' x); simpl; tauto.
Qed.

#[local] Instance shrinks_off : AllowsOff shrinks.
Proof. intros l st. split; simpl; auto. intros l'. apply in_removeFirst_in. Qed.

Lemma deliver_silent env h st : silent env -> deliver (page_events env h) st = st.
Proof. intros H. rewrite H. reflexivity. Qed.

#[local] Instance sameArrays_stepwise : Stepwise silent sameArrays.
Proof.
  split; unfold sameArrays; try reflexivity.
  - intros; congruence.
  - intros. now rewrite deliver_silent.
Qed.

#[local] Instance sameArrays_alloc : AllowsAlloc sameArrays.
Proof. intros st. reflexivity. Qed.
#[local] Instance sameArrays_flags : AllowsFlags sameArrays.
Proof. intros f st. reflexivity. Qed.
#[local] Instance sameArrays_on : AllowsOn sameArrays.
Proof. intros l st. reflexivity. Qed.
#[local] Instance sameArrays_off : AllowsOff sameArrays.
Proof. intros l st. reflexivity. Qed.

Lemma shrinks_launchBrowser i port : respectsIn anyEnv shrinks (launchBrowser i port).
Proof. unfold launchBrowser, closeBrowser, connectToDebugger. steps. Qed.

Lemma shrinks_closeBrowser : respectsIn anyEnv shrinks closeBrowser.
Proof. unfold closeBrowser. steps. Qed.

Lemma shrinks_finishAction a : respectsIn anyEnv shrinks (finishAction a).
Proof. unfold finishAction, getCurrentScreenshot, pageScreenshot. steps. Qed.

Lemma sameArrays_finishAction a : respectsIn silent sameArrays (finishAction a).
Proof. unfold finishAction, getCurrentScreenshot, pageScreenshot. steps. Qed.

(** ** Registered closures capture allocated addresses *)

Lemma allocated_shrinks st st' : allocated st -> shrinks st st' -> allocated st'.
Proof.
  intros Hst [Hn Hl] l Hin. specialize (Hst l (Hl l Hin)). lia.
Qed.

Lemma allocated_push st l :
  allocated st -> captured (l_closure l) < nextId st ->
  allocated (withListeners (fun ls => push ls l) st).
Proof.
  intros Hst Hl l' Hin. simpl in *. unfold push in Hin.
  apply in_app_or in Hin as [Hin|[<-|[]]]; auto.
Qed.

Lemma allocated_registerListeners p st :
  allocated st -> allocated (registerListeners p st).
Proof.
  intros Hst. unfold registerListeners.
  apply allocated_push; [apply allocated_push|]; simpl; try lia.
  intros l Hin. specialize (Hst l Hin). simpl in *. lia.
Qed.

Lemma allocated_registerRequest p st :
  allocated st -> allocated (registerRequest p st).
Proof.
  intros Hst. unfold registerRequest.
  apply allocated_push; simpl; try lia.
  intros l Hin. specialize (Hst l Hin). simpl in *. lia.
Qed.

Lemma click_effect_parts c p env st :
  effect (ClickAt c) p env st = dispatchClick c p (nextId st) env (registerRequest p st).
Proof. reflexivity. Qed.

Lemma shrinks_dispatchClick c p f : respectsIn anyEnv shrinks (dispatchClick c p f).
Proof. unfold dispatchClick, afterClick, awaitNavigation. steps. Qed.

Lemma shrinks_plain_effect a p :
  isClickAt a = false -> respectsIn anyEnv shrinks (effect a p).
Proof. destruct a; try discriminate; intros _; unfold effect, scrollBy; steps. Qed.

Lemma allocated_effect a p env st :
  allocated st -> allocated (snd (effect a p env st)).
Proof.
  intros Hst. destruct (isClickAt a) eqn:E.
  - destruct a; try discriminate. rewrite click_effect_parts.
    eapply allocated_shrinks; [apply allocated_registerRequest, Hst|].
    now apply shrinks_dispatchClick.
  - eapply allocated_shrinks; [exact Hst|]. now apply shrinks_plain_effect.
Qed.

Lemma heapOnly_allocated st st' : heapOnly st st' -> allocated st -> allocated st'.
Proof.
  intros (_ & _ & Hl & Hn) Hst l Hin. rewrite Hl in Hin. rewrite Hn. auto.
Qed.

Lemma allocated_afterEffect a env st p :
  allocated st -> allocated (afterEffect a env st p).
Proof.
  intros Hst. unfold afterEffect.
  eapply heapOnly_allocated; [apply runEffect_heapOnly|].
  apply allocated_effect, allocated_registerListeners, Hst.
Qed.

Lemma execute_no_page a env st :
  page (this st) = None ->
  execute a env st = (Throw (newError noActivePageMessage), st).
Proof. intros Hp. rewrite execute_doAction. now apply doAction_no_page. Qed.

Lemma allocated_execute a env st :
  allocated st -> allocated (snd (execute a env st)).
Proof.
  intros Hst. destruct (page (this st)) as [p|] eqn:Hp.
  - rewrite (execute_parts a env st p Hp).
    eapply allocated_shrinks; [apply allocated_afterEffect, Hst|].
    now apply shrinks_finishAction.
  - now rewrite execute_no_page.
Qed.

Lemma allocated_perform c env st :
  allocated st -> allocated (snd (perform c env st)).
Proof.
  intros Hst. destruct c as [i port| |a]; simpl.
  - eapply allocated_shrinks; [exact Hst | now apply shrinks_launchBrowser].
  - eapply allocated_shrinks; [exact Hst | now apply shrinks_closeBrowser].
  - now apply allocated_execute.
Qed.

Lemma allocated_runSession calls : forall env st,
  allocated st -> allocated (runSession calls env st).
Proof.
  induction calls as [|c calls IH]; intros env st Hst; simpl; [exact Hst|].
  apply IH, allocated_perform, Hst.
Qed.

Lemma allocated_initialState : allocated initialState.
Proof. intros l []. Qed.

(** ** Listeners after an action *)

Lemma closure_eqb_captured a b : closure_eqb a b = true -> captured a = captured b.
Proof. destruct a, b; simpl; try discriminate; apply Nat.eqb_eq. Qed.

Lemma listener_eqb_refl l : listener_eqb l l = true.
Proof.
  unfold listener_eqb. rewrite Nat.eqb_refl.
  destruct (l_event l), (l_closure l); simpl; now rewrite ?Nat.eqb_refl.
Qed.

Lemma listener_eqb_captured l x :
  listener_eqb l x = true -> captured (l_closure l) = captured (l_closure x).
Proof.
  unfold listener_eqb. intros H. apply andb_prop in H as [_ H].
  now apply closure_eqb_captured.
Qed.

(** Removing a registration that captures an address no earlier
    registration captures removes that very registration. *)
Lemma removeFirst_fresh x ls rest :
  (forall l, In l ls -> captured (l_closure l) <> captured (l_closure x)) ->
  removeFirst x (ls ++ x :: rest)%list = (ls ++ rest)%list.
Proof.
  induction ls as [|l ls IH]; intros Hfresh; simpl.
  - now rewrite listener_eqb_refl.
  - destruct (listener_eqb l x) eqn:E.
    + apply listener_eqb_captured in E. exfalso. apply (Hfresh l); simpl; auto.
    + f_equal. apply IH. intros l' Hin. apply Hfresh. now right.
Qed.

Lemma unregister_registered p st :
  allocated st ->
  removeFirst (mkListener p pageerror (errorListener (nextId st)))
    (removeFirst (mkListener p console (consoleListener (nextId st)))
       (listeners (registerListeners p st)))
  = listeners st.
Proof.
  intros Hst. simpl. unfold push. rewrite <- app_assoc. simpl.
  rewrite removeFirst_fresh
    by (intros l Hin; specialize (Hst l Hin); simpl; lia).
  rewrite removeFirst_fresh
    by (intros l Hin; specialize (Hst l Hin); simpl; lia).
  apply app_nil_r.
Qed.

Lemma sameListeners_plain_effect a p :
  isClickAt a = false -> respectsIn anyEnv sameListeners (effect a p).
Proof. destruct a; try discriminate; intros _; unfold effect, scrollBy; steps. Qed.

Lemma listeners_afterEffect_plain a env st p :
  isClickAt a = false ->
  listeners (afterEffect a env st p) = listeners (registerListeners p st).
Proof.
  intros Ha. unfold afterEffect.
  destruct (runEffect_heapOnly (effect a) (nextId st) p env (registerListeners p st))
    as (_ & _ & -> & _).
  now apply sameListeners_plain_effect.
Qed.

Lemma execute_ok_page a env st res :
  fst (execute a env st) = Ok res -> exists p, page (this st) = Some p.
Proof.
  destruct (page (this st)) as [p|] eqn:Hp; [eauto|].
  rewrite execute_no_page by exact Hp. discriminate.
Qed.

(** X3.  On a session reached by any sequence of calls, an action other
    than a click that returns a result leaves the page's listeners exactly
    as they were before the call: the console and page-error listeners it
    registered are the ones it removes. *)
Theorem successful_action_restores_listeners calls env a res :
  let st := runSession calls env initialState in
  isClickAt a = false ->
  fst (execute a env st) = Ok res ->
  listeners (snd (execute a env st)) = listeners st.
Proof.
  cbv zeta. intros Ha Hok.
  set (st := runSession calls env initialState) in *.
  assert (Hst : allocated st) by apply allocated_runSession, allocated_initialState.
  destruct (execute_ok_page _ _ _ _ Hok) as [p Hp].
  destruct (execute_finished a env st p Hp) as [r d u res' st' _ _ Hl _ _ _ _
                                               |r e d u res' st' _ _ Hl _ _ _ _
                                               |]; try discriminate;
    rewrite Hl, listeners_afterEffect_plain by exact Ha;
    now apply unregister_registered.
Qed.

Lemma successful_action_restores_listeners_witness :
  listeners (snd (execute ScrollDown quietEnv
                    (runSession [CallLaunch false None] quietEnv initialState)))
  = listeners (runSession [CallLaunch false None] quietEnv initialState).
Proof.
  apply (successful_action_restores_listeners [CallLaunch false None] quietEnv ScrollDown
           (mkResult (Some "data:image/webp;base64,AAAA") (Some EmptyString)
                     (Some "about:blank") None)).
  - reflexivity.
  - vm_compute. reflexivity.
Defined.

(** ** The lines an action collects *)

Lemma appended_same a st st' : arrays st' = arrays st -> appended a st st'.
Proof. intros H. exists []. now rewrite H, app_nil_r. Qed.

Lemma appended_refl a st : appended a st st.
Proof. now apply appended_same. Qed.

Lemma appended_trans a st1 st2 st3 :
  appended a st1 st2 -> appended a st2 st3 -> appended a st1 st3.
Proof. intros [m1 H1] [m2 H2]. exists (m1 ++ m2)%list. now rewrite H2, H1, app_assoc. Qed.

Lemma appended_runClosure a c e st : appended a st (runClosure c e st).
Proof.
  destruct c, e; simpl; try apply appended_refl;
    unfold appended, update; simpl;
    try match goal with
        | |- context [Nat.eqb a ?b] => destruct (Nat.eqb_spec a b); subst
        end;
    solve [ eexists; unfold push; reflexivity | exists []; now rewrite app_nil_r ].
Qed.

Lemma appended_fold a pe ls : forall st,
  appended a st
    (fold_left
       (fun st l =>
          if Nat.eqb (l_page l) (fst pe) && eventName_eqb (l_event l) (eventName (snd pe))
          then runClosure (l_closure l) (snd pe) st else st) ls st).
Proof.
  induction ls as [|l ls IH]; intros st; simpl; [apply appended_refl|].
  eapply appended_trans; [|apply IH].
  destruct (_ && _); [apply appended_runClosure | apply appended_refl].
Qed.

Lemma appended_deliver a evs : forall st, appended a st (deliver evs st).
Proof.
  induction evs as [|pe evs IH]; intros st; simpl; [apply appended_refl|].
  eapply appended_trans; [|apply IH]. apply appended_fold.
Qed.

#[local] Instance appended_stepwise a : Stepwise anyEnv (appended a).
Proof.
  split.
  - apply appended_refl.
  - apply appended_trans.
  - intros. now apply appended_same.
  - intros. now apply appended_same.
  - intros. apply appended_deliver.
Qed.

#[local] Instance appended_off a : AllowsOff (appended a).
Proof. intros l st. now apply appended_same. Qed.







Lemma whileChecks_readable env p fuel : forall maxChecks v st,
  readable env p -> fst (whileChecks fuel p maxChecks v env st) = Ok tt.
Proof.
  induction fuel as [|fuel IH]; intros maxChecks v st Hr; [reflexivity|].
  rewrite whileChecks_S.
  destruct (checkCounts v <=? maxChecks)%nat; [|reflexivity].
  destruct (Hr (trace st)) as [html E].
  unfold bind at 1. unfold pageContent, bind at 1, await. rewrite E.
  cbn [settleWith ret fst snd]. unfold bind at 1, consoleLog. cbv zeta.
  destruct (minStableSizeIterations <=? _)%nat; [reflexivity|].
  unfold bind, delayMs, await. now apply IH.
Qed.

Lemma sameListeners_waitTillHTMLStable p timeout env st :
  listeners (snd (waitTillHTMLStable p timeout env st)) = listeners st.
Proof. now apply (respects_waitTillHTMLStable (R := sameListeners)). Qed.

(** With a readable page the waits of [click] end normally, and its request
    listener is unregistered. *)
Lemma awaitNavigation_readable p f env st :
  readable env p ->
  exists st',
    awaitNavigation p f env st = (Ok tt, st')
    /\ listeners st'
       = removeFirst (mkListener p request (requestListener f)) (listeners st).
Proof.
  intros Hr. unfold awaitNavigation.
  unfold bind, delayMs, await, readFlag, swallow, tryCatch, settle, pageOff.
  cbv zeta. cbn [fst snd].
  match goal with |- context [flags ?s f] => destruct (flags s f) end.
  - destruct (on_waitForNavigation env _ p); cbn [throw ret fst snd];
      match goal with
      | |- context [waitTillHTMLStable p defaultTimeout env ?s] =>
          pose proof (whileChecks_readable env p (defaultTimeout / checkDurationMsecs)
                        (defaultTimeout / checkDurationMsecs) (mkVars 0 1 0) s Hr) as Hok;
          pose proof (sameListeners_waitTillHTMLStable p defaultTimeout env s) as Hl;
          fold (waitTillHTMLStable p defaultTimeout) in Hok;
          destruct (waitTillHTMLStable p defaultTimeout env s) as [[[]|e] s2];
          [|discriminate]
      end;
      simpl in Hl; eexists; (split; [reflexivity|]);
      cbn [listeners withListeners]; rewrite Hl; project; reflexivity.
  - unfold ret. eexists. split; [reflexivity|]. project. reflexivity.
Qed.

Lemma listeners_afterEffect a env st p :
  listeners (afterEffect a env st p)
  = listeners (snd (effect a p env (registerListeners p st))).
Proof.
  unfold afterEffect.
  now destruct (runEffect_heapOnly (effect a) (nextId st) p env (registerListeners p st))
    as (_ & _ & -> & _).
Qed.

Lemma listeners_dispatchClick_accepted c p env st :
  allocated st -> readable env p ->
  on_click env (trace st) p (clickX c) (clickY c) = None ->
  listeners (snd (effect (ClickAt c) p env st)) = listeners st.
Proof.
  intros Hst Hr Hc. rewrite click_effect_parts.
  unfold dispatchClick, bind at 1 2, await.
  change (trace (registerRequest p st)) with (trace st). rewrite Hc.
  cbn [settle ret fst snd]. unfold afterClick, bind at 1, setThis. cbn [fst snd].
  match goal with
  | |- context [awaitNavigation p ?f env ?s] =>
      destruct (awaitNavigation_readable p f env s Hr) as (st' & -> & Hl)
  end.
  cbn [snd]. rewrite Hl. unfold registerRequest. project. unfold push.
  rewrite removeFirst_fresh; [apply app_nil_r|].
  intros l Hin. specialize (Hst l Hin). simpl. lia.
Qed.

(** X4.  On a session reached by any sequence of calls whose page content
    can be read, a click whose dispatch is accepted and that returns a
    result leaves the page's listeners exactly as they were: the request
    listener is removed as well, whether or not a request was seen. *)
Theorem successful_click_restores_listeners calls env c res p :
  let st := runSession calls env initialState in
  page (this st) = Some p ->
  readable env p ->
  on_click env (trace st) p (clickX c) (clickY c) = None ->
  fst (click c env st) = Ok res ->
  listeners (snd (click c env st)) = listeners st.
Proof.
  cbv zeta. intros Hp Hr Hc Hok.
  set (st := runSession calls env initialState) in *.
  assert (Hst : allocated st) by apply allocated_runSession, allocated_initialState.
  change (click c) with (execute (ClickAt c)) in *.
  destruct (execute_finished (ClickAt c) env st p Hp) as [r d u res' st' _ _ Hl _ _ _ _
                                                         |r e d u res' st' _ _ Hl _ _ _ _
                                                         |]; try discriminate;
    rewrite Hl, listeners_afterEffect,
      (listeners_dispatchClick_accepted c p env (registerListeners p st))
      by (auto using allocated_registerListeners);
    now apply unregister_registered.
Qed.

Lemma successful_click_restores_listeners_witness :
  listeners (snd (click "10,20" quietEnv
                    (runSession [CallLaunch false None] quietEnv initialState)))
  = listeners (runSession [CallLaunch false None] quietEnv initialState).
Proof.
  apply (successful_click_restores_listeners [CallLaunch false None] quietEnv "10,20"
           (mkResult (Some "data:image/webp;base64,AAAA") (Some EmptyString)
                     (Some "about:blank") (Some "10,20")) 1).
  - reflexivity.
  - intros h. exists EmptyString. reflexivity.
  - reflexivity.
  - vm_compute. reflexivity.
Defined.

Lemma in_removeFirst_other x l ls :
  listener_eqb l x = false -> In l ls -> In l (removeFirst x ls).
Proof.
  intros Hne. induction ls as [|l' ls IH]; simpl; [tauto|].
  intros [->|Hin].
  - rewrite Hne. now left.
  - destruct (listener_eqb l' x); [exact Hin | right; auto].
Qed.

(** X5.  When the dispatch of the pointer click is rejected, [click] never
    reaches its [page.off("request", ...)]: the request listener it
    registered is still registered on the page when the call has ended,
    whether it ended with a result or with the screenshot error. *)
Theorem rejected_click_keeps_request_listener c env st p e :
  page (this st) = Some p ->
  on_click env (trace st) p (clickX c) (clickY c) = Some e ->
  In (mkListener p request (requestListener (S (nextId st))))
     (listeners (snd (click c env st))).
Proof.
  intros Hp Hc.
  change (click c) with (execute (ClickAt c)).
  assert (Hin : In (mkListener p request (requestListener (S (nextId st))))
                  (listeners (afterEffect (ClickAt c) env st p))).
  { rewrite listeners_afterEffect, click_effect_parts.
    unfold dispatchClick, bind at 1 2, await.
    change (trace (registerRequest p (registerListeners p st))) with (trace st).
    rewrite Hc. cbn [settle throw fst snd]. project.
    unfold registerRequest, registerListeners. project.
    unfold push. rewrite !in_app_iff. simpl. tauto. }
  destruct (execute_finished (ClickAt c) env st p Hp) as [r d u res' st' _ _ Hl _ _ _ _
                                                         |r d0 d u res' st' _ _ Hl _ _ _ _
                                                         |r e1 e2 st' _ _ Hl];
    rewrite Hl; try exact Hin;
    repeat (apply in_removeFirst_other;
            [unfold listener_eqb; simpl; now rewrite ?andb_false_r|]);
    exact Hin.
Qed.

Lemma rejected_click_keeps_request_listener_witness :
  In (mkListener 1 request (requestListener 3))
     (listeners (snd (click "10,20" deadPointerEnv (launched deadPointerEnv)))).
Proof.
  apply (rejected_click_keeps_request_listener "10,20" deadPointerEnv
           (launched deadPointerEnv) 1 (mkJsError false "ProtocolError" "Target closed"));
    reflexivity.
Defined.

(** ** More on launchBrowser *)

Lemma afterClose_parts env st : afterClose env st = (obtainBrowser ;; openPage) env st.
Proof. reflexivity. Qed.

Lemma keeps_obtainBrowser {X} (sel : BrowserSession -> X) ok keepL :
  (forall b s, sel (set_browser b s) = sel s) ->
  (forall r, ok (response_json r) = true) ->
  (forall ws r, ok (puppeteer_connect ws r) = true) ->
  (forall args, ok (console_error args) = true) ->
  (forall r, ok (puppeteer_launch [userAgentArg] 900 600 false r) = true) ->
  (forall u r, ok (fetch u r) = true) ->
  keeps sel ok keepL obtainBrowser.
Proof.
  intros. unfold obtainBrowser, launchPrivate, connectToDebugger, connectFailed. frame.
Qed.

Lemma keeps_closePrior {X} (sel : BrowserSession -> X) ok keepL :
  (forall args, ok (console_log args) = true) ->
  (forall b r, ok (browser_disconnect b r) = true) ->
  (forall b r, ok (browser_close b r) = true) ->
  keeps sel ok keepL closePrior.
Proof. intros. unfold closePrior. frame. now apply keeps_closeBrowser. Qed.

(** [closePrior] never throws. *)
Lemma closePrior_run {A} (k : M A) env st :
  (closePrior ;; k) env st = k env (snd (closePrior env st)).
Proof.
  destruct (browser (this st)) as [b|] eqn:Hb.
  - rewrite (closePrior_open k env st b Hb).
    unfold closePrior, bind, getThis. rewrite Hb.
    pose proof (closeBrowser_result env st) as Hok.
    destruct (closeBrowser env st) as [[r|e] st2]; [reflexivity | discriminate].
  - rewrite (closePrior_none k env st Hb).
    unfold closePrior, bind, getThis. now rewrite Hb.
Qed.

(** When the connection or the launch succeeds the session holds a
    browser. *)
Lemma obtainBrowser_ok env st :
  fst (obtainBrowser env st) = Ok tt ->
  exists b, browser (this (snd (obtainBrowser env st))) = Some b.
Proof.
  unfold obtainBrowser, launchPrivate, connectToDebugger, connectFailed.
  unfold bind, tryCatch, getThis, await, awaitNew, settle, settleWith, setThis,
    consoleError, throw, ret.
  cbv zeta.
  repeat match goal with
         | |- context [match ?x with _ => _ end] =>
             lazymatch x with
             | context [match _ with _ => _ end] => fail
             | _ => destruct x eqn:?
             end
         | |- context [if ?x then _ else _] =>
             lazymatch x with
             | context [match _ with _ => _ end] => fail
             | _ => destruct x eqn:?
             end
         end; cbn [fst snd]; try discriminate; intros _; project;
    cbn [browser set_browser]; eauto.
Qed.

Lemma openPage_cases env st b :
  browser (this st) = Some b ->
  PageOpened st b (fst (openPage env st)) (snd (openPage env st)).
Proof.
  intros Hb. unfold openPage, bind, getThis, awaitNew, setThis, sync, ret.
  cbv zeta. cbn [fst snd]. rewrite Hb.
  destruct (on_newPage env (trace st) b) as [e|]; project.
  - constructor; project; reflexivity.
  - cbn [page set_page]. project.
    eapply PageGranted; project; reflexivity.
Qed.

Lemma newPages_app h1 h2 : newPages (h1 ++ h2)%list = newPages h1 + newPages h2.
Proof.
  induction h1 as [|c h1 IH]; simpl; [reflexivity|].
  destruct c; simpl; now rewrite ?IH.
Qed.

Lemma newPages_none h : forallb notNewPage h = true -> newPages h = 0.
Proof.
  induction h as [|c h IH]; simpl; [reflexivity|].
  intros H. apply andb_prop in H as [Hc Hh].
  destruct c; auto; discriminate.
Qed.

(** [launchBrowser] up to its [newPage] call: the state reached, what it
    kept of the session, and that no page was opened yet. *)
Lemma launch_until_openPage i port env st :
  exists st3 r,
    launchBrowser i port env st
    = (match r with Ok _ => openPage env st3 | Throw e => (Throw e, st3) end)
    /\ (r = Ok tt \/ exists e, r = Throw e)
    /\ (r = Ok tt -> exists b, browser (this st3) = Some b)
    /\ page (this st3) = page (this st)
    /\ currentMousePosition (this st3) = currentMousePosition (this st)
    /\ isInteractive (this st3) = i
    /\ exists new, trace st3 = (new ++ trace st)%list /\ newPages new = 0.
Proof.
  rewrite launchBrowser_phases, closePrior_run, afterClose_parts.
  set (st1 := beginLaunch i port st).
  set (st2 := snd (closePrior env st1)).
  destruct (keeps_closePrior besidesBrowser notNewPage noListener) with (env := env)
    (st := st1) as (Hs2 & (new2 & Ht2 & Hn2) & _); try reflexivity.
  destruct (keeps_obtainBrowser besidesBrowser notNewPage noListener) with (env := env)
    (st := st2) as (Hs3 & (new3 & Ht3 & Hn3) & _); try reflexivity.
  fold st2 in Hs2, Ht2.
  pose proof (obtainBrowser_ok env st2) as Hb.
  exists (snd (obtainBrowser env st2)), (fst (obtainBrowser env st2)).
  split; [|split; [|split]].
  - unfold bind. destruct (obtainBrowser env st2) as [[[]|e] st3]; reflexivity.
  - destruct (fst (obtainBrowser env st2)) as [[]|e]; eauto.
  - exact Hb.
  - rewrite Hs2 in Hs3. unfold st1 in Hs3. rewrite beginLaunch_this in Hs3.
    unfold besidesBrowser in Hs3. cbn [page currentMousePosition isInteractive] in Hs3.
    injection Hs3 as H1 H2 H3 _.
    repeat split; auto.
    exists (new3 ++ new2 ++ [console_log [LStr "launch browser called"]])%list.
    split.
    + rewrite Ht3, Ht2. unfold st1. rewrite beginLaunch_trace.
      rewrite <- !app_assoc. reflexivity.
    + rewrite !newPages_app, (newPages_none _ Hn2), (newPages_none _ Hn3). reflexivity.
Qed.

(** X8.  A launch that returns has stored a browser and a page, in the
    mode requested; it opened exactly one page, read its URL last, and
    returns an empty screenshot, the message of the mode, that URL, and the
    cursor position the session had before the launch. *)
Theorem launch_success_opens_one_page i port env st res :
  fst (launchBrowser i port env st) = Ok res ->
  exists b p u,
    browser (this (snd (launchBrowser i port env st))) = Some b
    /\ page (this (snd (launchBrowser i port env st))) = Some p
    /\ isInteractive (this (snd (launchBrowser i port env st))) = i
    /\ res = mkResult (Some EmptyString) (Some (launchMessage i)) (Some u)
                      (currentMousePosition (this st))
    /\ (exists earlier,
          trace (snd (launchBrowser i port env st))
          = page_url p u :: browser_newPage b (inr p) :: earlier)
    /\ newPages (newCalls st (snd (launchBrowser i port env st))) = 1.
Proof.
  destruct (launch_until_openPage i port env st)
    as (st3 & r & -> & Hr & Hb & Hp & Hc & Hi & new & Ht & Hn).
  destruct Hr as [->|[e ->]]; [|discriminate].
  destruct (Hb eq_refl) as [b Hb3].
  intros Hok.
  destruct (openPage_cases env st3 b Hb3) as [e st' _ _|p u st' Ht' Hs']; [discriminate|].
  injection Hok as <-.
  exists b, p, u. rewrite Hs'. cbn [browser page isInteractive set_page].
  rewrite Hb3, Hi, Hc. repeat split; eauto.
  rewrite (newCalls_app st st' ([page_url p u; browser_newPage b (inr p)] ++ new)%list)
    by (rewrite Ht', Ht; reflexivity).
  simpl. now rewrite Hn.
Qed.

Lemma launch_success_opens_one_page_witness :
  exists b p u,
    browser (this (launched quietEnv)) = Some b
    /\ page (this (launched quietEnv)) = Some p
    /\ isInteractive (this (launched quietEnv)) = false
    /\ mkResult (Some EmptyString) (Some "Browser launched successfully.")
                (Some "about:blank") None
       = mkResult (Some EmptyString) (Some (launchMessage false)) (Some u)
                  (currentMousePosition (this initialState))
    /\ (exists earlier,
          trace (launched quietEnv)
          = page_url p u :: browser_newPage b (inr p) :: earlier)
    /\ newPages (newCalls initialState (launched quietEnv)) = 1.
Proof.
  exact (launch_success_opens_one_page false None quietEnv initialState _ eq_refl).
Defined.

(** X9.  A launch that throws leaves the stored page and the stored cursor
    position as they were, so a page of an earlier launch stays in use; the
    mode flag is nevertheless the one requested. *)
Theorem failed_launch_keeps_page i port env st e :
  fst (launchBrowser i port env st) = Throw e ->
  page (this (snd (launchBrowser i port env st))) = page (this st)
  /\ currentMousePosition (this (snd (launchBrowser i port env st)))
     = currentMousePosition (this st)
  /\ isInteractive (this (snd (launchBrowser i port env st))) = i.
Proof.
  destruct (launch_until_openPage i port env st)
    as (st3 & r & -> & Hr & Hb & Hp & Hc & Hi & _).
  destruct Hr as [->|[e' ->]].
  - destruct (Hb eq_refl) as [b Hb3].
    destruct (openPage_cases env st3 b Hb3) as [e1 st' _ Hs'|p u st' _ _];
      [|discriminate].
    intros _. rewrite Hs'. auto.
  - intros _. cbn [snd]. auto.
Qed.

Lemma failed_launch_keeps_page_witness :
  page (this (snd (launchBrowser true None unreachableEnv (launched unreachableEnv))))
  = Some 1
  /\ currentMousePosition
       (this (snd (launchBrowser true None unreachableEnv (launched unreachableEnv))))
     = None
  /\ isInteractive
       (this (snd (launchBrowser true None unreachableEnv (launched unreachableEnv))))
     = true.
Proof.
  eapply (failed_launch_keeps_page true None unreachableEnv (launched unreachableEnv)).
  reflexivity.
Defined.

Lemma afterClose_private env st :
  isInteractive (this st) = false ->
  afterClose env st = (launchPrivate ;; openPage) env st.
Proof.
  intros Hi. unfold afterClose, bind at 1, getThis. rewrite Hi. reflexivity.
Qed.

Lemma afterClose_attach env st :
  isInteractive (this st) = true ->
  afterClose env st = (tryCatch connectToDebugger connectFailed ;; openPage) env st.
Proof.
  intros Hi. unfold afterClose, bind at 1, getThis. rewrite Hi. reflexivity.
Qed.

Lemma launch_calls_by_mode i ok env st port :
  (forall args, ok (console_log args) = true) ->
  (forall b r, ok (browser_disconnect b r) = true) ->
  (forall b r, ok (browser_close b r) = true) ->
  (forall b r, ok (browser_newPage b r) = true) ->
  (forall p r, ok (page_url p r) = true) ->
  (forall st2, isInteractive (this st2) = i ->
     keeps (fun _ : BrowserSession => tt) ok noListener
       (if i then tryCatch connectToDebugger connectFailed else launchPrivate)) ->
  forallb ok (newCalls st (snd (launchBrowser i port env st))) = true.
Proof.
  intros H1 H2 H3 H4 H5 Hk.
  rewrite launchBrowser_phases, closePrior_run.
  set (st1 := beginLaunch i port st).
  destruct (keeps_closePrior isInteractive ok noListener) with (env := env)
    (st := st1) as (Hs2 & (new2 & Ht2 & Hn2) & _); auto.
  set (st2 := snd (closePrior env st1)) in *.
  assert (Hi : isInteractive (this st2) = i)
    by (rewrite Hs2; unfold st1; rewrite beginLaunch_this; reflexivity).
  assert (K : keeps (fun _ : BrowserSession => tt) ok noListener
                ((if i then tryCatch connectToDebugger connectFailed else launchPrivate)
                 ;; openPage)).
  { apply keeps_bind; [now apply (Hk st2) | intros _].
    unfold openPage. frame. }
  assert (E : afterClose env st2
              = ((if i then tryCatch connectToDebugger connectFailed else launchPrivate)
                 ;; openPage) env st2).
  { destruct i; [now apply afterClose_attach | now apply afterClose_private]. }
  rewrite E. destruct (K env st2) as (_ & (new3 & Ht3 & Hn3) & _).
  rewrite (newCalls_app st _ (new3 ++ new2 ++ [console_log [LStr "launch browser called"]])%list).
  - rewrite !forallb_app, Hn2, Hn3. simpl. now rewrite H1.
  - rewrite Ht3, Ht2. unfold st1. rewrite beginLaunch_trace.
    rewrite <- !app_assoc. reflexivity.
Qed.

(** X10.  A private launch never fetches the version document nor
    connects, and calls [puppeteer.launch] only with the fixed user agent,
    the 900 x 600 viewport and [headless: false]; an attaching launch never
    calls [puppeteer.launch].  Both hold whatever browser the session held
    before and whatever the world answers. *)
Theorem launch_modes_do_not_mix env st port :
  forallb privateLaunchCall (newCalls st (snd (launchBrowser false port env st))) = true
  /\ forallb attachCall (newCalls st (snd (launchBrowser true port env st))) = true.
Proof.
  split; apply launch_calls_by_mode; try reflexivity; intros st2 _.
  - unfold launchPrivate. frame.
  - unfold connectToDebugger, connectFailed. frame.
Qed.

(** ** The session fields across calls *)

Lemma keeps_plain_effect {X} (sel : BrowserSession -> X) a p :
  isClickAt a = false -> keeps sel anyCall noListener (effect a p).
Proof. destruct a; try discriminate; intros _; unfold effect, scrollBy; frame. Qed.

Lemma keeps_perform {X} (sel : BrowserSession -> X) c :
  (forall b s, sel (set_browser b s) = sel s) ->
  (forall p s, sel (set_page p s) = sel s) ->
  (forall a, c = CallAction a -> forall p, keeps sel anyCall noListener (effect a p)) ->
  forall env st,
    sel (this (snd (perform c env st)))
    = match c with
      | CallLaunch i port => sel (this (beginLaunch i port st))
      | _ => sel (this st)
      end.
Proof.
  intros Hb Hp Ha env st. destruct c as [i port| |a]; simpl.
  - rewrite launchBrowser_phases.
    assert (K : keeps sel anyCall noListener (closePrior ;; afterClose)).
    { apply keeps_bind; [apply keeps_closePrior; reflexivity | intros _].
      apply keeps_afterClose; auto. }
    now destruct (K env (beginLaunch i port st)) as (Hs & _).
  - now destruct (keeps_closeBrowser sel anyCall noListener) with (env := env) (st := st)
      as (Hs & _).
  - rewrite execute_doAction.
    destruct (keeps_doAction sel anyCall noListener (effect a)) with (env := env)
      (st := st) as (Hs & _); try reflexivity; try discriminate; auto.
Qed.

(** X6.  Only [click] moves the stored cursor position: a launch, a
    close, a navigation, typing and scrolling leave it as it was, so it
    outlives the browser it was recorded on. *)
Theorem cursor_moved_only_by_click c env st :
  isClick c = false ->
  currentMousePosition (this (snd (perform c env st))) = currentMousePosition (this st).
Proof.
  intros Hc. rewrite (keeps_perform currentMousePosition c); try reflexivity.
  - destruct c; try reflexivity. now rewrite beginLaunch_this.
  - intros a -> p. apply keeps_plain_effect. destruct a; try reflexivity; discriminate.
Qed.

Lemma cursor_moved_only_by_click_witness :
  currentMousePosition
    (this (snd (perform (CallLaunch true (Some "9222")) quietEnv
                  (snd (click "10,20" quietEnv (launched quietEnv))))))
  = Some "10,20".
Proof.
  exact (cursor_moved_only_by_click (CallLaunch true (Some "9222")) quietEnv
           (snd (click "10,20" quietEnv (launched quietEnv))) eq_refl).
Defined.

Lemma perform_mode c env st :
  isInteractive (this (snd (perform c env st))) = modeAfter (isInteractive (this st)) c.
Proof.
  rewrite (keeps_perform isInteractive c); try reflexivity.
  - destruct c; try reflexivity. now rewrite beginLaunch_this.
  - intros a _ p. apply keeps_effect; try reflexivity; discriminate.
Qed.

Lemma runSession_mode calls : forall env st,
  isInteractive (this (runSession calls env st))
  = fold_left modeAfter calls (isInteractive (this st)).
Proof.
  induction calls as [|c calls IH]; intros env st; simpl; [reflexivity|].
  now rewrite IH, perform_mode.
Qed.

(** X7.  After any sequence of calls, [isInInteractiveMode] is the mode
    requested by the most recent [launchBrowser] call, whether that launch
    succeeded or threw, and [false] if there was none; reading it changes
    nothing. *)
Theorem mode_getter_reports_last_request env calls :
  isInInteractiveMode env (runSession calls env initialState)
  = (Ok (fold_left modeAfter calls false), runSession calls env initialState).
Proof.
  unfold isInInteractiveMode, bind, getThis, ret. now rewrite runSession_mode.
Qed.

(** ** Actions *)

Lemma never_launched calls env : forall st,
  existsb isLaunch calls = false ->
  page (this st) = None -> listeners st = [] ->
  page (this (runSession calls env st)) = None
  /\ listeners (runSession calls env st) = [].
Proof.
  induction calls as [|c calls IH]; intros st Hc Hp Hl; simpl; [now split|].
  simpl in Hc. apply orb_false_elim in Hc as [Hc Hcs].
  destruct c as [i port| |a]; [discriminate| |]; simpl; apply IH; try exact Hcs.
  - now rewrite closeBrowser_this.
  - destruct (shrinks_closeBrowser env st I) as [_ Hin].
    destruct (listeners (snd (closeBrowser env st))) as [|l ls]; [reflexivity|].
    specialize (Hin l (or_introl eq_refl)). rewrite Hl in Hin. destruct Hin.
  - now rewrite execute_no_page.
  - now rewrite execute_no_page.
Qed.

(** X1.  As long as [launchBrowser] has not been called, whatever was
    closed or attempted before, every action throws the not-launched error
    and leaves the session as it was: no call is made and no listener is
    registered. *)
Theorem action_before_launch calls a env :
  existsb isLaunch calls = false ->
  execute a env (runSession calls env initialState)
  = (Throw (newError noActivePageMessage), runSession calls env initialState)
  /\ listeners (runSession calls env initialState) = [].
Proof.
  intros Hc.
  destruct (never_launched calls env initialState Hc eq_refl eq_refl) as [Hp Hl].
  split; [now apply execute_no_page | exact Hl].
Qed.

Lemma action_before_launch_witness :
  execute (TypeText "a") quietEnv
    (runSession [CallClose; CallAction ScrollDown] quietEnv initialState)
  = (Throw (newError noActivePageMessage),
     runSession [CallClose; CallAction ScrollDown] quietEnv initialState)
  /\ listeners (runSession [CallClose; CallAction ScrollDown] quietEnv initialState) = [].
Proof.
  exact (action_before_launch [CallClose; CallAction ScrollDown] (TypeText "a") quietEnv
           eq_refl).
Defined.

(** X2.  On a session with a page an action either throws the screenshot
    error or returns a result made of: the URL of the page, read last; the
    cursor position the session holds after the action; the lines of the
    action's own log array joined by newlines; and a screenshot that is a
    webp or a png data URI. *)
Theorem action_result a env st p :
  page (this st) = Some p ->
  fst (execute a env st) = Throw (newError screenshotFailedMessage)
  \/ exists res u rest,
       fst (execute a env st) = Ok res
       /\ currentUrl res = Some u
       /\ trace (snd (execute a env st)) = page_url p u :: rest
       /\ resultMousePosition res = currentMousePosition (this (snd (execute a env st)))
       /\ logs res
          = Some (String.concat newline (arrays (snd (execute a env st)) (nextId st)))
       /\ exists d, screenshot res = Some ("data:image/webp;base64," ++ d)
                    \/ screenshot res = Some ("data:image/png;base64," ++ d).
Proof.
  intros Hp.
  destruct (execute_finished a env st p Hp) as [r d u res st' Ht Hs _ Hsc Hl Hu Hm
                                               |r e d u res st' Ht Hs _ Hsc Hl Hu Hm
                                               |]; [right|right|left; reflexivity];
    exists res, u; eexists; rewrite Hs; repeat split; eauto.
Qed.

Lemma action_result_witness :
  fst (execute (TypeText "a") quietEnv (launched quietEnv))
  = Throw (newError screenshotFailedMessage)
  \/ exists res u rest,
       fst (execute (TypeText "a") quietEnv (launched quietEnv)) = Ok res
       /\ currentUrl res = Some u
       /\ trace (snd (execute (TypeText "a") quietEnv (launched quietEnv)))
          = page_url 1 u :: rest
       /\ resultMousePosition res
          = currentMousePosition
              (this (snd (execute (TypeText "a") quietEnv (launched quietEnv))))
       /\ logs res
          = Some (String.concat newline
                    (arrays (snd (execute (TypeText "a") quietEnv (launched quietEnv)))
                            (nextId (launched quietEnv))))
       /\ exists d, screenshot res = Some ("data:image/webp;base64," ++ d)
                    \/ screenshot res = Some ("data:image/png;base64," ++ d).
Proof. exact (action_result (TypeText "a") quietEnv (launched quietEnv) 1 eq_refl). Defined.

(** ** closeBrowser in detail *)

(** X11.  [closeBrowser] changes no field of the session, so the browser
    and the page stay stored.  With a browser it logs one line and makes
    one call on it, [disconnect] when the mode flag is set and [close]
    otherwise; without a browser it makes no call on any browser. *)
Theorem closeBrowser_calls env st :
  this (snd (closeBrowser env st)) = this st
  /\ match browser (this st) with
     | None => forallb notBrowserCall (newCalls st (snd (closeBrowser env st))) = true
     | Some b =>
         exists r,
           newCalls st (snd (closeBrowser env st))
           = if isInteractive (this st)
             then [browser_disconnect b r; console_log [LStr "disconnecting browser..."]]
             else [browser_close b r; console_log [LStr "closing browser..."]]
     end.
Proof.
  split; [apply closeBrowser_this|].
  destruct (browser (this st)) as [b|] eqn:Hb.
  - pose proof (closeBrowser_trace env st b Hb) as Ht.
    destruct (isInteractive (this st)); eexists;
      apply newCalls_app; rewrite Ht; reflexivity.
  - unfold closeBrowser, bind, getThis, consoleLog, ret. rewrite Hb.
    destruct (isInteractive (this st)); cbn [fst snd];
      match goal with
      | |- context [withTrace (cons ?c) st] =>
          rewrite (newCalls_app st _ [c]) by reflexivity
      end; reflexivity.
Qed.

(** ** waitTillHTMLStable in any world *)

Lemma polls_app h1 h2 : polls (h1 ++ h2)%list = polls h1 + polls h2.
Proof.
  induction h1 as [|c h1 IH]; simpl; [reflexivity|].
  destruct c; simpl; now rewrite ?IH.
Qed.

Lemma waited_app h1 h2 : waited (h1 ++ h2)%list = waited h1 + waited h2.
Proof.
  induction h1 as [|c h1 IH]; simpl; [reflexivity|].
  destruct c; simpl; rewrite ?IH; lia.
Qed.

Lemma whileChecks_bounded fuel : forall p maxChecks v env st,
  exists new,
    trace (snd (whileChecks fuel p maxChecks v env st)) = (new ++ trace st)%list
    /\ polls new <= fuel
    /\ waited new <= checkDurationMsecs * polls new
    /\ forallb (stabilizationCall p) new = true.
Proof.
  induction fuel as [|fuel IH]; intros p maxChecks v env st.
  - exists []. simpl. auto.
  - rewrite whileChecks_S.
    destruct (checkCounts v <=? maxChecks)%nat;
      [|exists []; simpl; repeat split; auto; lia].
    unfold bind at 1. unfold pageContent, bind at 1, await.
    destruct (on_content env (trace st) p) as [e|html];
      cbn [settleWith throw ret fst snd].
    + exists [page_content p (inl e)]. project. simpl.
      rewrite Nat.eqb_refl. unfold checkDurationMsecs. repeat split; try reflexivity; lia.
    + unfold bind at 1, consoleLog. cbv zeta. cbn [fst snd].
      destruct (minStableSizeIterations <=? _)%nat.
      * eexists [_; _; page_content p (inr html)]. project. simpl.
        rewrite Nat.eqb_refl. unfold checkDurationMsecs. repeat split; try reflexivity; lia.
      * unfold bind, delayMs, await. cbn [fst snd].
        match goal with
        | |- context [whileChecks fuel p maxChecks ?v' env ?s] =>
            destruct (IH p maxChecks v' env s) as (new & Ht & Hp & Hw & Hc)
        end.
        rewrite Ht. project.
        eexists (new ++ [delay checkDurationMsecs; _; page_content p (inr html)])%list.
        split; [now rewrite <- app_assoc|].
        rewrite polls_app, waited_app, forallb_app, Hc. simpl.
        rewrite Nat.eqb_refl. unfold checkDurationMsecs in *.
        repeat split; try reflexivity; lia.
Qed.

(** X12.  Whatever the page returns, [waitTillHTMLStable] reads the
    content at most [timeout / 500] times, spends at most [timeout]
    milliseconds in [delay], and makes no call other than reading the
    content of its page, logging, and 500 ms delays. *)
Theorem stabilization_is_bounded p timeout env st :
  let new := newCalls st (snd (waitTillHTMLStable p timeout env st)) in
  polls new <= timeout / 500
  /\ waited new <= timeout
  /\ forallb (stabilizationCall p) new = true.
Proof.
  cbv zeta. unfold waitTillHTMLStable.
  destruct (whileChecks_bounded (timeout / checkDurationMsecs) p
              (timeout / checkDurationMsecs) (mkVars 0 1 0) env st)
    as (new & Ht & Hp & Hw & Hc).
  rewrite (newCalls_app _ _ new Ht).
  unfold checkDurationMsecs in *. repeat split; auto.
  pose proof (Nat.Div0.mul_div_le timeout 500). nia.
Qed.

(** ** waitTillHTMLStable against a simulated source: how many polls *)

Lemma whileChecks_simulated_polls sizes p maxChecks fuel : forall k v st,
  polls (trace st) = k ->
  declaredStable st = false ->
  checkCounts v = S k ->
  lastHTMLSize v = prevSize sizes k ->
  countStableSizeIterations v = prevCounter sizes k ->
  (forall i, i < k -> counterAfter sizes i < 3) ->
  let st' := snd (whileChecks fuel p maxChecks v (simulatedSource sizes) st) in
  (declaredStable st' = false -> polls (trace st') = k + Nat.min fuel (maxChecks - k))
  /\ (declaredStable st' = true ->
      exists j, polls (trace st') = S j /\ counterAfter sizes j = 3
                /\ forall i, i < j -> counterAfter sizes i < 3).
Proof.
  induction fuel as [|fuel IH]; intros k v st Hk Hst Hc Hl Hn Hlt; cbv zeta.
  - rewrite Nat.min_0_l, Nat.add_0_r. simpl. rewrite Hst, Hk.
    split; [reflexivity | discriminate].
  - rewrite whileChecks_S, Hc.
    destruct (Nat.leb_spec (S k) maxChecks) as [Hle|Hgt].
    2:{ replace (maxChecks - k) with 0 by lia. rewrite Nat.min_0_r, Nat.add_0_r.
        simpl. rewrite Hst, Hk. split; [reflexivity | discriminate]. }
    unfold bind, pageContent, bind, await, settleWith, ret, consoleLog, delayMs, await.
    cbn [simulatedSource on_content page_events quietEnv deliver fold_left trace withTrace].
    rewrite Hk, length_document, Hl, Hn.
    cbv zeta.
    rewrite <- counterAfter_step.
    destruct (Nat.leb_spec minStableSizeIterations (counterAfter sizes k)) as [Hge|Hsm].
    + cbn [snd fst declaredStable existsb trace withTrace isRenderedFully String.eqb
             Ascii.eqb Bool.eqb orb polls]. rewrite Hk. split; [discriminate | intros _].
      exists k. repeat split; auto.
      rewrite counterAfter_step in *.
      destruct (negb _ && _); unfold minStableSizeIterations in *; [|lia].
      assert (prevCounter sizes k < 3); [|lia].
      destruct k as [|k']; simpl; [lia | apply Hlt; lia].
    + unfold minStableSizeIterations in Hsm.
      match goal with
      | |- context [whileChecks fuel p maxChecks ?v' _ ?s] =>
          specialize (IH (S k) v' s)
      end.
      cbv zeta in IH.
      destruct IH as [IH1 IH2];
        [ cbn; now rewrite Hk | exact Hst | reflexivity | reflexivity | reflexivity
        | intros i Hi; destruct (Nat.eq_dec i k); [subst; lia | apply Hlt; lia] | ].
      split; [intros H; rewrite (IH1 H); lia | exact IH2].
Qed.

(** X13.  Against a content source with given sizes, [waitTillHTMLStable]
    uses all of its [timeout / 500] polls when it does not declare the page
    stable, and when it does it stops at the first poll at which the
    counter of unchanged sizes is 3. *)
Theorem stabilization_polls sizes timeout :
  (declaredStable (stabilize sizes timeout) = false ->
   polls (trace (stabilize sizes timeout)) = timeout / 500)
  /\ (declaredStable (stabilize sizes timeout) = true ->
      exists k, polls (trace (stabilize sizes timeout)) = S k
                /\ counterAfter sizes k = 3
                /\ forall i, i < k -> counterAfter sizes i < 3).
Proof.
  unfold stabilize, waitTillHTMLStable.
  destruct (whileChecks_simulated_polls sizes 0 (timeout / checkDurationMsecs)
              (timeout / checkDurationMsecs) 0 (mkVars 0 1 0) initialState)
    as [H1 H2]; try reflexivity; try (intros; lia).
  split; [|exact H2].
  intros H. rewrite (H1 H). unfold checkDurationMsecs. lia.
Qed.

Lemma stabilization_polls_witness :
  exists k, polls (trace (stabilize [250; 250; 250; 250] 5000)) = S k
            /\ counterAfter [250; 250; 250; 250] k = 3
            /\ forall i, i < k -> counterAfter [250; 250; 250; 250] i < 3.
Proof.
  exact (proj2 (stabilization_polls [250; 250; 250; 250] 5000) eq_refl).
Defined.

(** ** Errors of the effect *)

(** X14.  When [page.goto] rejects, on a page that emits nothing,
    [navigateToUrl] still returns a result if a screenshot can be taken:
    its logs are the line [[Error] <error>], or empty when the error is a
    [TimeoutError], and the content of the page is not polled at all. *)
Theorem rejected_navigation_is_logged env st p url e res :
  silent env ->
  page (this st) = Some p ->
  on_goto env (trace st) p url = Some e ->
  fst (navigateToUrl url env st) = Ok res ->
  logs res = Some (if instanceOfTimeoutError e then EmptyString
                   else "[Error] " ++ toString e)
  /\ polls (newCalls st (snd (navigateToUrl url env st))) = 0.
Proof.
  intros Hq Hp Hg Hok.
  change (navigateToUrl url) with (execute (NavigateTo url)) in *.
  assert (Hst2 : afterEffect (NavigateTo url) env st p
                 = (if instanceOfTimeoutError e
                    then fun s => s
                    else withArrays (fun m => update m (nextId st)
                                                (push (m (nextId st))
                                                      ("[Error] " ++ toString e))))
                     (withTrace (cons (page_goto p url (Some e))) (registerListeners p st))).
  { unfold afterEffect, runEffect, tryCatch, effect, bind at 1 2, await.
    change (trace (registerListeners p st)) with (trace st). rewrite Hg.
    rewrite deliver_silent by exact Hq.
    cbn [settle throw fst snd].
    destruct (instanceOfTimeoutError e); reflexivity. }
  pose proof (sameArrays_finishAction (nextId st) env
                (afterEffect (NavigateTo url) env st p) Hq) as Ha.
  rewrite <- (execute_parts _ _ _ _ Hp) in Ha. unfold sameArrays in Ha.
  destruct (execute_finished (NavigateTo url) env st p Hp)
    as [r d u res' st' Ht _ _ _ Hl _ _|r e1 d u res' st' Ht _ _ _ Hl _ _|];
    try discriminate; injection Hok as ->;
    rewrite Hl, Ha, Hst2; rewrite Hst2 in Ht;
    (split;
      [ destruct (instanceOfTimeoutError e); simpl; unfold update;
        rewrite Nat.eqb_refl; reflexivity
      | assert (Ht' : trace st' = trace st') by reflexivity;
        rewrite Ht in Ht' at 2;
        destruct (instanceOfTimeoutError e); cbn [trace withTrace withArrays] in Ht';
        change (trace (registerListeners p st)) with (trace st) in Ht';
        match type of Ht' with
        | _ = ?c1 :: ?c2 :: ?c3 :: ?c4 :: ?c5 :: trace st =>
            rewrite (newCalls_app st st' [c1; c2; c3; c4; c5]) by exact Ht'
        | _ = ?c1 :: ?c2 :: ?c3 :: ?c4 :: trace st =>
            rewrite (newCalls_app st st' [c1; c2; c3; c4]) by exact Ht'
        end; reflexivity ]).
Qed.

Lemma rejected_navigation_is_logged_witness :
  logs (mkResult (Some "data:image/webp;base64,AAAA")
                 (Some "[Error] Error: net::ERR_NAME_NOT_RESOLVED")
                 (Some "about:blank") None)
  = Some "[Error] Error: net::ERR_NAME_NOT_RESOLVED"
  /\ polls (newCalls (launched offlineEnv)
              (snd (navigateToUrl "http://nowhere.invalid" offlineEnv (launched offlineEnv))))
     = 0.
Proof.
  apply (rejected_navigation_is_logged offlineEnv (launched offlineEnv) 1
           "http://nowhere.invalid" (mkJsError false "Error" "net::ERR_NAME_NOT_RESOLVED")).
  - intros h. reflexivity.
  - reflexivity.
  - reflexivity.
  - vm_compute. reflexivity.
Defined.

(** ** What the listeners write *)

Lemma arrays_fold_others pe a ls : forall st,
  (forall l, In l ls -> captured (l_closure l) <> a) ->
  arrays
    (fold_left
       (fun st l =>
          if Nat.eqb (l_page l) (fst pe) && eventName_eqb (l_event l) (eventName (snd pe))
          then runClosure (l_closure l) (snd pe) st else st) ls st) a
  = arrays st a.
Proof.
  induction ls as [|l ls IH]; intros st Hls; simpl; [reflexivity|].
  rewrite IH by (intros; apply Hls; now right).
  destruct (_ && _); [|reflexivity].
  assert (Hne : captured (l_closure l) <> a) by (apply Hls; now left).
  destruct (l_closure l) as [b|b|f], (snd pe); simpl in *; try reflexivity;
    unfold update; destruct (Nat.eqb_spec a b); congruence.
Qed.

Lemma arrays_fire p a ls st pe :
  listeners st
  = (ls ++ [mkListener p console (consoleListener a);
            mkListener p pageerror (errorListener a)])%list ->
  (forall l, In l ls -> captured (l_closure l) <> a) ->
  arrays (fire st pe) a
  = (arrays st a ++ (if Nat.eqb p (fst pe) then logLine (snd pe) else []))%list.
Proof.
  intros Hl Hls. unfold fire. rewrite Hl, fold_left_app. simpl.
  set (st1 := fold_left _ ls st).
  assert (H1 : arrays st1 a = arrays st a) by (now apply arrays_fold_others).
  destruct pe as [q ev]. simpl.
  destruct (Nat.eqb_spec p q) as [->|Hne]; simpl.
  - destruct ev; simpl; unfold update, push; rewrite ?Nat.eqb_refl, ?H1;
      try reflexivity. now rewrite app_nil_r.
  - rewrite app_nil_r. exact H1.
Qed.

Lemma arrays_deliver p a ls evs : forall st,
  listeners st
  = (ls ++ [mkListener p console (consoleListener a);
            mkListener p pageerror (errorListener a)])%list ->
  (forall l, In l ls -> captured (l_closure l) <> a) ->
  arrays (deliver evs st) a = (arrays st a ++ linesOf p evs)%list.
Proof.
  induction evs as [|pe evs IH]; intros st Hl Hls; simpl.
  - now rewrite app_nil_r.
  - rewrite IH by (try exact Hls; destruct (heapOnly_fire st pe) as (_ & _ & -> & _);
                   exact Hl).
    rewrite (arrays_fire p a ls st pe Hl Hls). now rewrite <- app_assoc.
Qed.

(** X15.  On a session reached by any sequence of calls, the events
    delivered once [doAction] has registered its listeners on page [p] fill
    the action's log array with the lines of the console messages and page
    errors of [p], in the order of the events: events of other pages,
    requests, and listeners left behind by earlier calls add nothing to
    it. *)
Theorem listeners_log_in_order calls env p evs :
  let st := runSession calls env initialState in
  arrays (deliver evs (registerListeners p st)) (nextId st) = linesOf p evs.
Proof.
  cbv zeta.
  set (st := runSession calls env initialState).
  assert (Hst : allocated st) by apply allocated_runSession, allocated_initialState.
  rewrite (arrays_deliver p (nextId st) (listeners st)).
  - simpl. unfold update. now rewrite Nat.eqb_refl.
  - simpl. unfold push. now rewrite <- app_assoc.
  - intros l Hin. specialize (Hst l Hin). lia.
Qed.

(** ** The arguments of the pointer click *)

Lemma split_no_comma s : noComma s = true -> split "," s = [s].
Proof.
  induction s as [|c s IH]; simpl; [reflexivity|].
  intros H. apply andb_prop in H as [Hc Hs].
  apply negb_true_iff in Hc. rewrite Hc, (IH Hs). reflexivity.
Qed.

Lemma split_comma x rest :
  noComma x = true -> split "," (x ++ String "," rest) = x :: split "," rest.
Proof.
  induction x as [|c x IH]; simpl; [reflexivity|].
  intros H. apply andb_prop in H as [Hc Hs].
  apply negb_true_iff in Hc. rewrite Hc, (IH Hs). reflexivity.
Qed.

(** X16.  The numbers [click] passes to [page.mouse.click]: for two
    comma-free fields [x,y] they are [Number(x)] and [Number(y)]; without a
    comma the second is [undefined]; fields after the second are
    ignored. *)
Theorem click_arguments x y :
  noComma x = true -> noComma y = true ->
  (clickX (x ++ "," ++ y) = Some (Number x) /\ clickY (x ++ "," ++ y) = Some (Number y))
  /\ (clickX x = Some (Number x) /\ clickY x = None)
  /\ forall rest, clickX (x ++ "," ++ y ++ "," ++ rest) = Some (Number x)
                  /\ clickY (x ++ "," ++ y ++ "," ++ rest) = Some (Number y).
Proof.
  intros Hx Hy. unfold clickX, clickY. repeat split.
  all: cbn [append].
  all: try (rewrite (split_comma x _ Hx)).
  all: try (rewrite (split_no_comma y Hy)).
  all: try (rewrite (split_no_comma x Hx)).
  all: try (rewrite (split_comma y _ Hy)).
  all: reflexivity.
Qed.

Lemma click_arguments_witness :
  (clickX ("10" ++ "," ++ "20") = Some (Number "10")
   /\ clickY ("10" ++ "," ++ "20") = Some (Number "20"))
  /\ (clickX "10" = Some (Number "10") /\ clickY "10" = None)
  /\ forall rest, clickX ("10" ++ "," ++ "20" ++ "," ++ rest) = Some (Number "10")
                  /\ clickY ("10" ++ "," ++ "20" ++ "," ++ rest) = Some (Number "20").
Proof. exact (click_arguments "10" "20" eq_refl eq_refl). Defined.

(** ** Typing and scrolling *)


